(** * Museum gallery (script.js): the local image store and the gallery controller

    A shallow embedding of [script.js].  The script keeps uploaded images in
    one IndexedDB object store and renders them into a grid.

    - Host objects the script only calls (the clock [Date.now], the blob URL
      registry, [FileReader], the IndexedDB factory) are the environment: the
      clock and the two string producers are oracles of a [host] record, the
      IndexedDB factory is an explicit state following the Indexed Database
      API (key generator, records kept in key order, one connection per
      [open]).
    - A promise returned by a store function is either already rejected (the
      executor threw) or waits for one database request.  The database serves
      requests in the order they were placed; the outcome of each one (success,
      or a host failure that aborts its transaction) is an input of the step.
    - JavaScript strings are byte strings here, text outside ASCII in UTF-8;
      the five characters [escapeHtml] rewrites are ASCII. *)

From stdpp Require Import gmap strings list fin_maps sorting pretty.
From Stdlib Require Import ZArith Ascii.

Local Open Scope string_scope.
Local Open Scope list_scope.

(** ** JavaScript values held by a record's [name] *)

Inductive jsval :=
  | JUndefined
  | JNull
  | JString (s : string).

(** [ToBoolean]: undefined, null and the empty string are falsy. *)
Definition truthy (v : jsval) : bool :=
  match v with
  | JString EmptyString => false
  | JString _ => true
  | _ => false
  end.

(** [v || d] for a string default [d]. *)
Definition js_or (v : jsval) (d : string) : jsval :=
  if truthy v then v else JString d.

(** [String(v)]. *)
Definition ToString (v : jsval) : string :=
  match v with
  | JUndefined => "undefined"
  | JNull => "null"
  | JString s => s
  end.

(** [s.startsWith(p)] *)
Fixpoint startsWith (s p : string) {struct p} : bool :=
  match p with
  | EmptyString => true
  | String a p' =>
      match s with
      | EmptyString => false
      | String b s' => Ascii.eqb a b && startsWith s' p'
      end
  end.

Definition dquote : ascii := Eval cbv in ascii_of_nat 34.
Definition dq : string := String dquote EmptyString.

(** ** escapeHtml (script.js:150-152) *)

(** The replacement table of the callback ([&] to [&amp;], [<] to [&lt;],
    [>] to [&gt;], the double quote to [&quot;], the apostrophe to [&#39;])
    applied to one character; a character outside the class of the regular
    expression is not matched and stays. *)
Definition entity (c : ascii) : string :=
  if Ascii.eqb c "&" then "&amp;"
  else if Ascii.eqb c "<" then "&lt;"
  else if Ascii.eqb c ">" then "&gt;"
  else if Ascii.eqb c dquote then "&quot;"
  else if Ascii.eqb c "'" then "&#39;"
  else String c EmptyString.

(** [s.replace(re, callback)] with the global flag: every match, left to right. *)
Fixpoint replace_markup_chars (s : string) : string :=
  match s with
  | EmptyString => EmptyString
  | String c s' => entity c +:+ replace_markup_chars s'
  end.

Definition escapeHtml (s : jsval) : string :=
  replace_markup_chars (ToString s).

(** ** Data model *)

Record Blob := { blob_bytes : list Byte.byte; blob_type : string }.

Record File := { file_name : string; file_type : string; file_bytes : list Byte.byte }.

(** [file.slice(0, file.size, file.type)] *)
Definition file_slice_all (f : File) : Blob :=
  {| blob_bytes := take (length (file_bytes f)) (drop 0 (file_bytes f));
     blob_type := file_type f |}.

(** The object literal [{ name, blob, created: Date.now() }]. *)
Record item := { i_name : jsval; i_blob : Blob; i_created : Z }.

(** A stored record: the item with the generated key at its key path [id]. *)
Record ImageRecord := { id : Z; name : jsval; blob : Blob; created : Z }.

Definition with_key (k : Z) (it : item) : ImageRecord :=
  {| id := k; name := i_name it; blob := i_blob it; created := i_created it |}.

Definition fields (r : ImageRecord) : jsval * Blob * Z :=
  (name r, blob r, created r).

Definition DB_NAME : string := "galleryDB".
Definition DB_VERSION : Z := 1.
Definition STORE_NAME : string := "images".

(** ** The IndexedDB factory (host state) *)

(** An object store created with [{ keyPath: 'id', autoIncrement: true }]:
    its records in ascending key order and the current number of its key
    generator. *)
Record object_store := { records : list ImageRecord; keygen : Z }.

Record database := { version : Z; objectStores : gmap string object_store }.

Record connection := { conn_no : nat; conn_db : string }.

Record idb_factory := {
  databases : gmap string database;
  connections : list connection   (* every connection opened and not closed *)
}.

Inductive error :=
  | TypeError          (* a property of [undefined] was read *)
  | NotFoundError      (* no such object store *)
  | ConstraintError    (* key generator exhausted, or key already present *)
  | VersionError       (* the stored database is newer than DB_VERSION *)
  | HostError.         (* quota, I/O or any other failure of the host *)

Inductive request :=
  | ReqOpen (dbname : string) (ver : Z)
  | ReqAdd (c : connection) (store : string) (it : item)
  | ReqGetAll (c : connection) (store : string)
  | ReqDelete (c : connection) (store : string) (key : Z)
  | ReqClear (c : connection) (store : string).

Inductive value :=
  | VDb (c : connection)
  | VKey (k : Z)
  | VRecords (l : list ImageRecord)
  | VUndefined.

Inductive settled :=
  | Resolved (v : value)
  | Rejects (e : error).

(** A promise built by [new Promise(executor)] around one request: rejected at
    once when the executor throws, otherwise waiting for the request. *)
Inductive promise :=
  | Rejected (e : error)
  | Pending (r : request).

Definition max_generated_key : Z := 2 ^ 53.

(** Store a record at its place in key order. *)
Fixpoint put_in_key_order (r : ImageRecord) (l : list ImageRecord) : list ImageRecord :=
  match l with
  | [] => [r]
  | x :: l' => if (id r <? id x)%Z then r :: l else x :: put_in_key_order r l'
  end.

Definition has_key (k : Z) (l : list ImageRecord) : bool :=
  existsb (fun r => (id r =? k)%Z) l.

(** [store.add(item)] on a store with a key generator and an item without an
    [id]: the key is the generator's current number. *)
Definition store_add (it : item) (s : object_store) : error + (Z * object_store) :=
  let k := keygen s in
  if (max_generated_key <? k)%Z then inl ConstraintError
  else if has_key k (records s) then inl ConstraintError
  else inr (k, {| records := put_in_key_order (with_key k it) (records s);
                  keygen := (k + 1)%Z |}).

Definition store_getAll (s : object_store) : list ImageRecord := records s.

Definition store_delete (k : Z) (s : object_store) : object_store :=
  {| records := filter (fun r => id r ≠ k) (records s); keygen := keygen s |}.

Definition store_clear (s : object_store) : object_store :=
  {| records := []; keygen := keygen s |}.

Definition find_store (c : connection) (store : string) (f : idb_factory)
  : option (database * object_store) :=
  d ← databases f !! conn_db c;
  s ← objectStores d !! store;
  Some (d, s).

Definition set_store (c : connection) (store : string) (d : database)
    (s : object_store) (f : idb_factory) : idb_factory :=
  {| databases :=
       <[conn_db c := {| version := version d;
                         objectStores := <[store := s]> (objectStores d) |}]>
         (databases f);
     connections := connections f |}.

(** The [onupgradeneeded] handler of [openDB] (script.js:14-19). *)
Definition onupgradeneeded (stores : gmap string object_store)
  : gmap string object_store :=
  match stores !! STORE_NAME with
  | Some _ => stores
  | None => <[STORE_NAME := {| records := []; keygen := 1 |}]> stores
  end.

(** [indexedDB.open(name, ver)] once the host serves it: a database that does
    not exist starts at version 0; a lower stored version runs the upgrade
    handler, a higher one fails; every success is a new connection. *)
Definition factory_open (dbname : string) (ver : Z) (f : idb_factory)
  : error + (connection * idb_factory) :=
  let d := default {| version := 0; objectStores := ∅ |} (databases f !! dbname) in
  if (ver <? version d)%Z then inl VersionError
  else
    let d' := if (version d <? ver)%Z
              then {| version := ver; objectStores := onupgradeneeded (objectStores d) |}
              else d in
    let c := {| conn_no := length (connections f); conn_db := dbname |} in
    inr (c, {| databases := <[dbname := d']> (databases f);
               connections := connections f ++ [c] |}).

(** One request served by the database.  [ok = false] is a failure of the
    host: the request's transaction aborts and nothing changes. *)
Definition serve (ok : bool) (r : request) (f : idb_factory) : settled * idb_factory :=
  if negb ok then (Rejects HostError, f)
  else
    match r with
    | ReqOpen n v =>
        match factory_open n v f with
        | inl e => (Rejects e, f)
        | inr (c, f') => (Resolved (VDb c), f')
        end
    | ReqAdd c st it =>
        match find_store c st f with
        | None => (Rejects NotFoundError, f)
        | Some (d, s) =>
            match store_add it s with
            | inl e => (Rejects e, f)
            | inr (k, s') => (Resolved (VKey k), set_store c st d s' f)
            end
        end
    | ReqGetAll c st =>
        match find_store c st f with
        | None => (Rejects NotFoundError, f)
        | Some (_, s) => (Resolved (VRecords (store_getAll s)), f)
        end
    | ReqDelete c st k =>
        match find_store c st f with
        | None => (Rejects NotFoundError, f)
        | Some (d, s) => (Resolved VUndefined, set_store c st d (store_delete k s) f)
        end
    | ReqClear c st =>
        match find_store c st f with
        | None => (Rejects NotFoundError, f)
        | Some (d, s) => (Resolved VUndefined, set_store c st d (store_clear s) f)
        end
    end.

(** ** The script's module state and the store functions *)

(** The host's oracles: the [n]-th reading of [Date.now()], the [n]-th URL
    handed out by [URL.createObjectURL], the data URL [FileReader] computes. *)
Record host := {
  Date_now : nat → Z;
  createObjectURL : nat → string;
  readAsDataURL : File → string
}.

Inductive store_call :=
  | CallOpen
  | CallAdd (n : jsval)
  | CallGetAll
  | CallDelete (k : Z)
  | CallClear.

Record world := {
  indexedDB : idb_factory;
  db : option connection;         (* [let db;] *)
  clock_reads : nat;              (* readings of [Date.now()] taken so far *)
  calls : list store_call         (* history of the store functions entered;
                                     read by no function *)
}.

Definition enter (c : store_call) (w : world) : world :=
  {| indexedDB := indexedDB w; db := db w; clock_reads := clock_reads w;
     calls := calls w ++ [c] |}.

(** [db.transaction(STORE_NAME, mode).objectStore(STORE_NAME)]. *)
Definition transaction (w : world) : error + connection :=
  match db w with
  | None => inl TypeError
  | Some c =>
      match find_store c STORE_NAME (indexedDB w) with
      | None => inl NotFoundError
      | Some _ => inr c
      end
  end.

Section Store.
Context (H : host).

Definition openDB (w : world) : promise * world :=
  (Pending (ReqOpen DB_NAME DB_VERSION), enter CallOpen w).

Definition addImageBlob (n : jsval) (b : Blob) (w : world) : promise * world :=
  let w := enter (CallAdd n) w in
  match transaction w with
  | inl e => (Rejected e, w)
  | inr c =>
      let it := {| i_name := n; i_blob := b;
                   i_created := Date_now H (clock_reads w) |} in
      (Pending (ReqAdd c STORE_NAME it),
       {| indexedDB := indexedDB w; db := db w;
          clock_reads := S (clock_reads w); calls := calls w |})
  end.

Definition getAllImages (w : world) : promise * world :=
  let w := enter CallGetAll w in
  match transaction w with
  | inl e => (Rejected e, w)
  | inr c => (Pending (ReqGetAll c STORE_NAME), w)
  end.

Definition deleteImageById (k : Z) (w : world) : promise * world :=
  let w := enter (CallDelete k) w in
  match transaction w with
  | inl e => (Rejected e, w)
  | inr c => (Pending (ReqDelete c STORE_NAME k), w)
  end.

Definition clearAllImages (w : world) : promise * world :=
  let w := enter CallClear w in
  match transaction w with
  | inl e => (Rejected e, w)
  | inr c => (Pending (ReqClear c STORE_NAME), w)
  end.
End Store.

(** The database serves request [r] and its [onsuccess]/[onerror] callback
    settles the promise.  [openDB]'s [onsuccess] also assigns [db]. *)
Definition settle (ok : bool) (r : request) (w : world) : settled * world :=
  let '(res, f) := serve ok r (indexedDB w) in
  let d := match r, res with
           | ReqOpen _ _, Resolved (VDb c) => Some c
           | _, _ => db w
           end in
  (res, {| indexedDB := f; db := d; clock_reads := clock_reads w; calls := calls w |}).

(** [await p] with nothing else in flight. *)
Definition await (ok : bool) (pw : promise * world) : settled * world :=
  match pw.1 with
  | Rejected e => (Rejects e, pw.2)
  | Pending r => settle ok r pw.2
  end.

(** ** The gallery controller *)

(** [Array.prototype.sort(cmp)].  The language requires a stable sort, and for
    a consistent comparator every stable sort gives the same array; written
    as insertion from the right, an element going before the first one it does
    not compare greater than. *)
Fixpoint sort_insert {A} (cmp : A → A → Z) (x : A) (l : list A) : list A :=
  match l with
  | [] => [x]
  | y :: l' => if (cmp x y <=? 0)%Z then x :: l else y :: sort_insert cmp x l'
  end.

Definition Array_sort {A} (cmp : A → A → Z) (l : list A) : list A :=
  foldr (sort_insert cmp) [] l.

(** [(a,b) => b.created - a.created] *)
Definition newest_first (a b : ImageRecord) : Z := (created b - created a)%Z.

(** A child of [galleryGrid] or [uploadPreview]: markup parsed from an
    [innerHTML] assignment, or a [div] made by [createElement]; [delete_key]
    is the key the click listener of a card's button reads back from its
    [data-id]. *)
Inductive element :=
  | Markup (html : string)
  | Div (className : string) (innerHTML : string) (delete_key : option Z).

Definition newline : ascii := Eval cbv in ascii_of_nat 10.
Definition nl : string := String newline EmptyString.

Definition attr (k v : string) : string := k +:+ "=" +:+ dq +:+ v +:+ dq.

(** The template literal of script.js:129-137 as a function of the values of
    its five substitutions. *)
Definition card_template (href alt src caption data_id : string) : string :=
  nl +:+ "      <a " +:+ attr "href" href +:+ " " +:+ attr "target" "_blank"
     +:+ " " +:+ attr "rel" "noopener noreferrer" +:+ "><img "
     +:+ attr "alt" alt +:+ " " +:+ attr "src" src +:+ "></a>"
  +:+ nl +:+ "      <div " +:+ attr "class" "meta" +:+ ">"
  +:+ nl +:+ "        <div " +:+ attr "class" "meta-left" +:+ ">"
     +:+ caption +:+ "</div>"
  +:+ nl +:+ "        <div " +:+ attr "class" "meta-right" +:+ ">"
  +:+ nl +:+ "          <button " +:+ attr "class" "btn ghost" +:+ " "
     +:+ attr "data-id" data_id +:+ ">Delete</button>"
  +:+ nl +:+ "        </div>"
  +:+ nl +:+ "      </div>"
  +:+ nl +:+ "    ".

Definition card_html (imgURL : string) (it : ImageRecord) : string :=
  card_template imgURL (escapeHtml (js_or (name it) "photo")) imgURL
    (escapeHtml (js_or (name it) "Untitled")) (pretty (id it)).

Definition empty_gallery_html : string :=
  "<p " +:+ attr "class" "muted small" +:+ ">No photos yet — add some above.</p>".

Definition storage_unavailable_html : string :=
  "<p " +:+ attr "class" "muted"
  +:+ ">Browser storage is not available in this environment.</p>".

Definition preview_html (dataURL : string) : string :=
  "<img " +:+ attr "src" dataURL +:+ " "
  +:+ attr "style" "width:120px;height:80px;object-fit:cover;border-radius:8px;border:1px solid rgba(0,0,0,0.06)"
  +:+ "/>".

(** What the caller chained on a store promise. *)
Inductive cont :=
  | KOpened     (* init: await openDB() *)
  | KAdded      (* handleFiles: .then(refreshGallery).catch(console.error) *)
  | KListed     (* refreshGallery: await getAllImages() *)
  | KDeleted    (* a card's button: await deleteImageById(id) *)
  | KCleared.   (* clearAllBtn: await clearAllImages() *)

Record session := {
  w : world;
  inflight : list (request * cont);   (* requests placed, oldest first *)
  reading : list File;                (* FileReader loads not yet delivered *)
  galleryGrid : list element;
  uploadPreview : list element;
  console : list (string * error);
  object_urls : nat                   (* URLs handed out by createObjectURL *)
}.

Definition set_w (x : world) (s : session) : session :=
  {| w := x; inflight := inflight s; reading := reading s;
     galleryGrid := galleryGrid s; uploadPreview := uploadPreview s;
     console := console s; object_urls := object_urls s |}.

Definition push_request (r : request) (k : cont) (s : session) : session :=
  {| w := w s; inflight := inflight s ++ [(r, k)]; reading := reading s;
     galleryGrid := galleryGrid s; uploadPreview := uploadPreview s;
     console := console s; object_urls := object_urls s |}.

Definition set_inflight (q : list (request * cont)) (s : session) : session :=
  {| w := w s; inflight := q; reading := reading s;
     galleryGrid := galleryGrid s; uploadPreview := uploadPreview s;
     console := console s; object_urls := object_urls s |}.

Definition set_reading (l : list File) (s : session) : session :=
  {| w := w s; inflight := inflight s; reading := l;
     galleryGrid := galleryGrid s; uploadPreview := uploadPreview s;
     console := console s; object_urls := object_urls s |}.

Definition set_gallery (g : list element) (n : nat) (s : session) : session :=
  {| w := w s; inflight := inflight s; reading := reading s;
     galleryGrid := g; uploadPreview := uploadPreview s;
     console := console s; object_urls := n |}.

Definition add_preview (e : element) (s : session) : session :=
  {| w := w s; inflight := inflight s; reading := reading s;
     galleryGrid := galleryGrid s; uploadPreview := uploadPreview s ++ [e];
     console := console s; object_urls := object_urls s |}.

Definition console_error (msg : string) (e : error) (s : session) : session :=
  {| w := w s; inflight := inflight s; reading := reading s;
     galleryGrid := galleryGrid s; uploadPreview := uploadPreview s;
     console := console s ++ [(msg, e)]; object_urls := object_urls s |}.

Section Controller.
Context (H : host).

(** The loop body of [refreshGallery], one card per item, each with a new
    object URL. *)
Fixpoint cards (n : nat) (items : list ImageRecord) : list element :=
  match items with
  | [] => []
  | it :: rest =>
      Div "card-item" (card_html (createObjectURL H n) it) (Some (id it))
        :: cards (S n) rest
  end.

(** [refreshGallery] after [await getAllImages()] has given [items]
    (script.js:118-147). *)
Definition render (items : list ImageRecord) (s : session) : session :=
  let items := Array_sort newest_first items in
  match items with
  | [] => set_gallery [Markup empty_gallery_html] (object_urls s) s
  | _ => set_gallery (cards (object_urls s) items)
           (object_urls s + length items) s
  end.

Definition on_listed (res : settled) (s : session) : session :=
  match res with
  | Resolved (VRecords items) => render items s
  | _ => s      (* refreshGallery rejects; no caller handles it *)
  end.

(** [refreshGallery] up to its [await] (script.js:117).  When
    [getAllImages] is rejected at once the function rejects too. *)
Definition refreshGallery (s : session) : session :=
  let '(p, x) := getAllImages (w s) in
  match p with
  | Rejected e => on_listed (Rejects e) (set_w x s)
  | Pending r => push_request r KListed (set_w x s)
  end.

(** The handlers chained on a settled promise. *)
Definition react (k : cont) (res : settled) (s : session) : session :=
  match k, res with
  | KOpened, Resolved _ => refreshGallery s
  | KOpened, Rejects e =>
      set_gallery [Markup storage_unavailable_html] (object_urls s)
        (console_error "Failed to open DB" e s)
  | KAdded, Resolved _ => refreshGallery s
  | KAdded, Rejects e => console_error "DB add error" e s
  | KListed, _ => on_listed res s
  | KDeleted, Resolved _ => refreshGallery s
  | KDeleted, Rejects _ => s
  | KCleared, Resolved _ => refreshGallery s
  | KCleared, Rejects _ => s
  end.

(** Chain [k] on the promise a store function returned: a waiting promise
    joins the requests in flight.  The reaction to a promise that is already
    rejected, which the script runs once the current handler is over, changes
    only what no handler reads, and is taken at once. *)
Definition chain (k : cont) (pw : promise * world) (s : session) : session :=
  match pw.1 with
  | Rejected e => react k (Rejects e) (set_w pw.2 s)
  | Pending r => push_request r k (set_w pw.2 s)
  end.

(** The callback of [arr.forEach] in [handleFiles] (script.js:93-111). *)
Definition handleFile (s : session) (file : File) : session :=
  if negb (startsWith (file_type file) "image/") then s
  else
    let s := set_reading (reading s ++ [file]) s in
    let blob := file_slice_all file in
    chain KAdded (addImageBlob H (JString (file_name file)) blob (w s)) s.

Definition handleFiles (files : list File) (s : session) : session :=
  foldl handleFile s files.

(** [reader.onload] (script.js:97-103). *)
Definition reader_onload (file : File) (s : session) : session :=
  add_preview (Div "preview-thumb" (preview_html (readAsDataURL H file)) None) s.

Inductive event :=
  | Drop (files : list File)            (* drop on dropArea *)
  | Change (files : list File)          (* change of fileElem *)
  | ClickClearAll (confirmed : bool)    (* click on clearAllBtn, and the answer to confirm *)
  | ClickDelete (n : nat) (confirmed : bool)
                                        (* click on the button of the n-th child of the grid *)
  | Served (ok : bool)                  (* the database serves the oldest request in flight *)
  | Loaded (n : nat).                   (* the n-th FileReader load is delivered *)

Definition step (s : session) (e : event) : session :=
  match e with
  | Drop files | Change files => handleFiles files s
  | ClickClearAll confirmed =>
      if negb confirmed then s
      else chain KCleared (clearAllImages (w s)) s
  | ClickDelete n confirmed =>
      match galleryGrid s !! n with
      | Some (Div _ _ (Some k)) =>
          if negb confirmed then s
          else chain KDeleted (deleteImageById k (w s)) s
      | _ => s
      end
  | Served ok =>
      match inflight s with
      | [] => s
      | (r, k) :: q =>
          let '(res, x) := settle ok r (w s) in
          react k res (set_inflight q (set_w x s))
      end
  | Loaded n =>
      match reading s !! n with
      | Some file => reader_onload file (set_reading (delete n (reading s)) s)
      | None => s
      end
  end.

Definition run (s : session) (es : list event) : session := foldl step s es.

(** The script loaded over the stored databases [dbs]: the listeners are
    registered and [init] has called [openDB]. *)
Definition loaded (dbs : gmap string database) : session :=
  chain KOpened
    (openDB {| indexedDB := {| databases := dbs; connections := [] |};
               db := None; clock_reads := 0; calls := [] |})
    {| w := {| indexedDB := {| databases := dbs; connections := [] |};
               db := None; clock_reads := 0; calls := [] |};
       inflight := []; reading := []; galleryGrid := []; uploadPreview := [];
       console := []; object_urls := 0 |}.
End Controller.


(** * Vocabulary of the properties *)

Definition current_store (x : world) : option object_store :=
  c ← db x; snd <$> find_store c STORE_NAME (indexedDB x).

Definition with_idb (f : idb_factory) (x : world) : world :=
  {| indexedDB := f; db := db x; clock_reads := clock_reads x; calls := calls x |}.

Definition tick (x : world) : world :=
  {| indexedDB := indexedDB x; db := db x;
     clock_reads := S (clock_reads x); calls := calls x |}.

(** Every key in the store was produced by its generator. *)
Definition keys_below (s : object_store) : Prop :=
  ∀ r, r ∈ records s → (id r < keygen s)%Z.

(** One insert after the other, each awaited; [ok] is what the host does with
    the request. *)
Fixpoint insert_all (H : host) (xs : list (jsval * Blob * bool)) (x : world)
  : list settled * world :=
  match xs with
  | [] => ([], x)
  | (n, b, ok) :: xs' =>
      let r := await ok (addImageBlob H n b x) in
      let rs := insert_all H xs' r.2 in
      (r.1 :: rs.1, rs.2)
  end.

(** The records a run of successful inserts leaves: keys from [k] upwards,
    clock readings from the [t]-th on. *)
Fixpoint inserted (H : host) (k : Z) (t : nat) (xs : list (jsval * Blob * bool))
  : list ImageRecord :=
  match xs with
  | [] => []
  | (n, b, _) :: xs' =>
      {| id := k; name := n; blob := b; created := Date_now H t |}
        :: inserted H (k + 1) (S t) xs'
  end.

Definition fresh_world (dbs : gmap string database) : world :=
  {| indexedDB := {| databases := dbs; connections := [] |};
     db := None; clock_reads := 0; calls := [] |}.

Definition is_markup_char (c : ascii) : bool :=
  Ascii.eqb c "<" || Ascii.eqb c ">" || Ascii.eqb c dquote || Ascii.eqb c "'".

Definition reference_tail (s : string) : bool :=
  startsWith s "amp;" || startsWith s "lt;" || startsWith s "gt;"
  || startsWith s "quot;" || startsWith s "#39;".

(** Escaped text: no character that opens or closes a tag or a quoted
    attribute value, and every ampersand starts one of the five character
    references. *)
Fixpoint escaped_text (s : string) : bool :=
  match s with
  | EmptyString => true
  | String c s' =>
      (if Ascii.eqb c "&" then reference_tail s' else negb (is_markup_char c))
      && escaped_text s'
  end.

(** What a parser reads back from escaped text: each of the five character
    references stands for its character ([skip] characters of a reference are
    still to be passed over). *)
Fixpoint unescape (skip : nat) (s : string) : string :=
  match s with
  | EmptyString => EmptyString
  | String c s' =>
      match skip with
      | S k => unescape k s'
      | O =>
          if negb (Ascii.eqb c "&") then String c (unescape 0 s')
          else if startsWith s' "amp;" then String "&" (unescape 4 s')
          else if startsWith s' "lt;" then String "<" (unescape 3 s')
          else if startsWith s' "gt;" then String ">" (unescape 3 s')
          else if startsWith s' "quot;" then String dquote (unescape 5 s')
          else if startsWith s' "#39;" then String "'" (unescape 4 s')
          else String c (unescape 0 s')
      end
  end.

Definition newer_or_same (a b : ImageRecord) : Prop := (created b ≤ created a)%Z.

Definition gallery_of (H : host) (n : nat) (shown : list ImageRecord) : list element :=
  match shown with
  | [] => [Markup empty_gallery_html]
  | _ => cards H n shown
  end.

Definition unavailable (s : session) : Prop :=
  db (w s) = None ∧ inflight s = [] ∧
  galleryGrid s = [Markup storage_unavailable_html].

Definition is_image (f : File) : bool := startsWith (file_type f) "image/".

(** The items [handleFiles] builds for the image files of a batch, the first
    one with the [t]-th clock reading. *)
Fixpoint batch_items (H : host) (t : nat) (files : list File) : list item :=
  match files with
  | [] => []
  | f :: fs =>
      if is_image f
      then {| i_name := JString (file_name f); i_blob := file_slice_all f;
              i_created := Date_now H t |} :: batch_items H (S t) fs
      else batch_items H t fs
  end.

(** The records left by the inserts of [its] that the host lets succeed
    ([oks], one outcome per insert), keys from [k] upwards. *)
Fixpoint batch_stored (k : Z) (its : list item) (oks : list bool) : list ImageRecord :=
  match its, oks with
  | it :: its', true :: oks' => with_key k it :: batch_stored (k + 1) its' oks'
  | _ :: its', false :: oks' => batch_stored k its' oks'
  | _, _ => []
  end.

Fixpoint count_ok (oks : list bool) : nat :=
  match oks with
  | [] => 0
  | true :: oks' => S (count_ok oks')
  | false :: oks' => count_ok oks'
  end.

Definition add_requests (c : connection) (its : list item) : list (request * cont) :=
  (λ it, (ReqAdd c STORE_NAME it, KAdded)) <$> its.

Definition list_requests (c : connection) (j : nat) : list (request * cont) :=
  replicate j (ReqGetAll c STORE_NAME, KListed).

(** The gallery's object store, as it is or as [openDB] will create it. *)
Definition gallery_store (f : idb_factory) : option object_store :=
  d ← databases f !! DB_NAME; objectStores d !! STORE_NAME.

Definition gstore (f : idb_factory) : object_store :=
  default {| records := []; keygen := 1 |} (gallery_store f).

Definition stored_records (s : session) : list ImageRecord :=
  records (gstore (indexedDB (w s))).







(** A host whose clock gives the readings [ts] in turn and then stays at the
    last one. *)
Definition host_with_clock (ts : list Z) : host :=
  {| Date_now := λ n, nth n ts (default 0%Z (last ts));
     createObjectURL := λ n, "blob:museum/" +:+ pretty n;
     readAsDataURL := λ f, "data:" +:+ file_type f +:+ ";base64," |}.

Definition png (n : string) : File :=
  {| file_name := n; file_type := "image/png"; file_bytes := [Byte.x89; Byte.x50] |}.

Definition png_blob : Blob := file_slice_all (png "any.png").

Definition conn0 : connection := {| conn_no := 0; conn_db := DB_NAME |}.
Definition conn1 : connection := {| conn_no := 1; conn_db := DB_NAME |}.

Definition empty_store : object_store := {| records := []; keygen := 1 |}.

(** The world after the first [openDB] on a browser without databases. *)
Definition opened_world : world := (await true (openDB (fresh_world ∅))).2.

(** The session after [init] has completed on a browser without databases:
    the open and the first listAll were served. *)
Definition started (H : host) : session :=
  run H (loaded H ∅) [Served true; Served true].

(** The session after a failed [init]. *)
Definition failed (H : host) : session := step H (loaded H ∅) (Served false).

(** Three records created at 100, 300 and 200. *)
Definition three_records : list (jsval * Blob * bool) :=
  [(JString "a.png", png_blob, true); (JString "b.png", png_blob, true);
   (JString "c.png", png_blob, true)].

Definition with_three (H : host) : session :=
  run H (started H)
    [Drop [png "a.png"; png "b.png"; png "c.png"];
     Served true; Served true; Served true; Served true; Served true; Served true].

Definition delete_key_of (e : element) : option Z :=
  match e with
  | Markup _ => None
  | Div _ _ k => k
  end.

(** The characters the regular expression of [escapeHtml] matches. *)
Definition is_special (c : ascii) : bool := Ascii.eqb c "&" || is_markup_char c.

Fixpoint special_free (s : string) : bool :=
  match s with
  | EmptyString => true
  | String c s' => negb (is_special c) && special_free s'
  end.

(** The preview side of a session: the loads pending and the thumbnails shown. *)
Definition previews (s : session) : list File * list element :=
  (reading s, uploadPreview s).

Definition thumb (H : host) (f : File) : element :=
  Div "preview-thumb" (preview_html (readAsDataURL H f)) None.

Definition returning_dbs : gmap string database :=
  <[DB_NAME := {| version := 1;
                  objectStores :=
                    <[STORE_NAME :=
                        {| records :=
                             [ {| id := 2; name := JString "old.png"; blob := png_blob;
                                  created := 50 |};
                               {| id := 5; name := JNull; blob := png_blob;
                                  created := 70 |} ];
                           keygen := 6 |}]> ∅ |}]> ∅.

Definition newer_dbs : gmap string database :=
  <[DB_NAME := {| version := 2; objectStores := <[STORE_NAME := empty_store]> ∅ |}]> ∅.




(** What a browser's tokenizer makes of markup: text, start tags with their
    attributes, end tags.  Text and attribute values are kept as written
    (character references are read with [unescape]). *)
Inductive token :=
  | TText (s : string)
  | TOpen (name : string) (attrs : list (string * string))
  | TClose (name : string).

(** Where the tokenizer is: in text, in a tag name, between attributes, in an
    attribute name, after its [=], in an unquoted value, or in a value quoted
    with [q]. *)
Inductive tok_state :=
  | SText (txt : string)
  | SName (closing : bool) (name : string)
  | SAttrs (name : string) (attrs : list (string * string))
  | SAttrName (name : string) (attrs : list (string * string)) (an : string)
  | SAttrEq (name : string) (attrs : list (string * string)) (an : string)
  | SUnquoted (name : string) (attrs : list (string * string)) (an v : string)
  | SValue (q : ascii) (name : string) (attrs : list (string * string)) (an v : string).

Definition snoc (s : string) (c : ascii) : string := s +:+ String c EmptyString.

Definition tab : ascii := Eval cbv in ascii_of_nat 9.
Definition carriage_return : ascii := Eval cbv in ascii_of_nat 13.

Definition is_space (c : ascii) : bool :=
  Ascii.eqb c " " || Ascii.eqb c newline || Ascii.eqb c tab
  || Ascii.eqb c carriage_return.

Definition emit_text (out : list token) (txt : string) : list token :=
  match txt with
  | EmptyString => out
  | _ => out ++ [TText txt]
  end.

Definition tok_step (a : list token * tok_state) (c : ascii) : list token * tok_state :=
  let '(out, st) := a in
  match st with
  | SText txt =>
      if Ascii.eqb c "<" then (emit_text out txt, SName false EmptyString)
      else (out, SText (snoc txt c))
  | SName closing name =>
      if Ascii.eqb c ">"
      then (out ++ [if closing then TClose name else TOpen name []], SText EmptyString)
      else if Ascii.eqb c "/" && negb closing && (String.length name =? 0)%nat
      then (out, SName true EmptyString)
      else if is_space c
      then (out, if closing then SName closing name else SAttrs name [])
      else (out, SName closing (snoc name c))
  | SAttrs name attrs =>
      if Ascii.eqb c ">" then (out ++ [TOpen name attrs], SText EmptyString)
      else if is_space c || Ascii.eqb c "/" then (out, SAttrs name attrs)
      else (out, SAttrName name attrs (String c EmptyString))
  | SAttrName name attrs an =>
      if Ascii.eqb c "=" then (out, SAttrEq name attrs an)
      else if Ascii.eqb c ">"
      then (out ++ [TOpen name (attrs ++ [(an, EmptyString)])], SText EmptyString)
      else if is_space c then (out, SAttrs name (attrs ++ [(an, EmptyString)]))
      else (out, SAttrName name attrs (snoc an c))
  | SAttrEq name attrs an =>
      if Ascii.eqb c dquote || Ascii.eqb c "'" then (out, SValue c name attrs an EmptyString)
      else if Ascii.eqb c ">"
      then (out ++ [TOpen name (attrs ++ [(an, EmptyString)])], SText EmptyString)
      else if is_space c then (out, SAttrEq name attrs an)
      else (out, SUnquoted name attrs an (String c EmptyString))
  | SUnquoted name attrs an v =>
      if Ascii.eqb c ">"
      then (out ++ [TOpen name (attrs ++ [(an, v)])], SText EmptyString)
      else if is_space c then (out, SAttrs name (attrs ++ [(an, v)]))
      else (out, SUnquoted name attrs an (snoc v c))
  | SValue q name attrs an v =>
      if Ascii.eqb c q then (out, SAttrs name (attrs ++ [(an, v)]))
      else (out, SValue q name attrs an (snoc v c))
  end.

Fixpoint tok_run (a : list token * tok_state) (s : string) : list token * tok_state :=
  match s with
  | EmptyString => a
  | String c s' => tok_run (tok_step a c) s'
  end.

Definition tokenize (s : string) : list token :=
  let '(out, st) := tok_run ([], SText EmptyString) s in
  match st with
  | SText txt => emit_text out txt
  | _ => out
  end.

(** [c] does not occur in [s]. *)
Fixpoint lacks (c : ascii) (s : string) : bool :=
  match s with
  | EmptyString => true
  | String a s' => negb (Ascii.eqb a c) && lacks c s'
  end.

(** The tokens of a card: the link with the image, the caption and the
    Delete button, for the URL, alt text, caption and data-id put into the
    template. *)
Definition card_dom (url alt caption data_id : string) : list token :=
  [ TText (nl +:+ "      ");
    TOpen "a" [("href", url); ("target", "_blank"); ("rel", "noopener noreferrer")];
    TOpen "img" [("alt", alt); ("src", url)];
    TClose "a";
    TText (nl +:+ "      ");
    TOpen "div" [("class", "meta")];
    TText (nl +:+ "        ");
    TOpen "div" [("class", "meta-left")] ]
  ++ emit_text [] caption
  ++ [ TClose "div";
       TText (nl +:+ "        ");
       TOpen "div" [("class", "meta-right")];
       TText (nl +:+ "          ");
       TOpen "button" [("class", "btn ghost"); ("data-id", data_id)];
       TText "Delete";
       TClose "button";
       TText (nl +:+ "        ");
       TClose "div";
       TText (nl +:+ "      ");
       TClose "div";
       TText (nl +:+ "    ") ].


(** Blob URLs hold no double quote. *)
Definition urls_quote_free (H : host) : Prop :=
  ∀ n, lacks dquote (createObjectURL H n) = true.

Definition innerHTML_of (e : element) : string :=
  match e with
  | Markup html => html
  | Div _ html _ => html
  end.

Definition jpg (n : string) : File :=
  {| file_name := n; file_type := "image/jpeg"; file_bytes := [Byte.xff; Byte.xd8] |}.

(** * Properties *)

(** ** The store seen through the module's connection *)

Lemma find_store_Some c st f d s :
  find_store c st f = Some (d, s) ↔
  databases f !! conn_db c = Some d ∧ objectStores d !! st = Some s.
Proof.
  unfold find_store. split.
  - intros Hf. destruct (databases f !! conn_db c) as [d'|] eqn:Hd; simplify_eq/=.
    destruct (objectStores d' !! st) as [s'|] eqn:Hs; simplify_eq/=. done.
  - intros [-> Hs]. simpl. by rewrite Hs.
Qed.

Lemma find_store_set c st d s f :
  find_store c st (set_store c st d s f)
  = Some ({| version := version d; objectStores := <[st:=s]> (objectStores d) |}, s).
Proof.
  unfold find_store, set_store. simpl. rewrite lookup_insert_eq. simpl.
  by rewrite lookup_insert_eq.
Qed.

Lemma set_store_same c st d s f :
  find_store c st f = Some (d, s) → set_store c st d s f = f.
Proof.
  intros [Hd Hs]%find_store_Some. destruct f as [dbs cs], d as [v os].
  unfold set_store. simpl in *. f_equal.
  rewrite (insert_id os st s Hs). by apply insert_id.
Qed.

Lemma current_store_Some x st :
  current_store x = Some st ↔
  ∃ c d, db x = Some c ∧ find_store c STORE_NAME (indexedDB x) = Some (d, st).
Proof.
  unfold current_store. split.
  - destruct (db x) as [c|]; simpl; [|done].
    destruct (find_store c STORE_NAME (indexedDB x)) as [[d s]|] eqn:Hf; simpl; [|done].
    intros [= ->]. eauto.
  - intros (c & d & -> & Hf). simpl. by rewrite Hf.
Qed.

Lemma transaction_enter call x :
  transaction (enter call x) = transaction x.
Proof. done. Qed.

Lemma transaction_inr x c :
  transaction x = inr c ↔
  db x = Some c ∧ is_Some (find_store c STORE_NAME (indexedDB x)).
Proof.
  unfold transaction. split.
  - destruct (db x) as [c'|]; [|done].
    destruct (find_store c' STORE_NAME (indexedDB x)) eqn:Hf; [|done].
    intros [= ->]. rewrite Hf. eauto.
  - intros [-> [ds Hf]]. by rewrite Hf.
Qed.

Lemma transaction_ready x c d st :
  db x = Some c → find_store c STORE_NAME (indexedDB x) = Some (d, st) →
  transaction x = inr c.
Proof. intros. apply transaction_inr. eauto. Qed.

(** ** Requests served by the database *)

Lemma settle_failed r x : settle false r x = (Rejects HostError, x).
Proof. unfold settle. simpl. destruct r, x; done. Qed.

Lemma settle_getAll c st x d s :
  find_store c st (indexedDB x) = Some (d, s) →
  settle true (ReqGetAll c st) x = (Resolved (VRecords (records s)), x).
Proof. intros Hf. unfold settle, serve. rewrite Hf. by destruct x. Qed.

Lemma settle_clear c st x d s :
  find_store c st (indexedDB x) = Some (d, s) →
  settle true (ReqClear c st) x
  = (Resolved VUndefined, with_idb (set_store c st d (store_clear s) (indexedDB x)) x).
Proof. intros Hf. unfold settle, serve. by rewrite Hf. Qed.

Lemma settle_delete c st k x d s :
  find_store c st (indexedDB x) = Some (d, s) →
  settle true (ReqDelete c st k) x
  = (Resolved VUndefined, with_idb (set_store c st d (store_delete k s) (indexedDB x)) x).
Proof. intros Hf. unfold settle, serve. by rewrite Hf. Qed.

Lemma settle_add c st it x d s :
  find_store c st (indexedDB x) = Some (d, s) →
  settle true (ReqAdd c st it) x
  = match store_add it s with
    | inl e => (Rejects e, x)
    | inr (k, s') => (Resolved (VKey k), with_idb (set_store c st d s' (indexedDB x)) x)
    end.
Proof.
  intros Hf. unfold settle, serve. rewrite Hf. cbn [negb].
  destruct (store_add it s) as [e|[k s']]; [by destruct x|done].
Qed.

Lemma settle_no_store ok r x :
  match r with
  | ReqOpen _ _ => False
  | ReqAdd c st _ | ReqGetAll c st | ReqDelete c st _ | ReqClear c st =>
      find_store c st (indexedDB x) = None
  end →
  ∃ e, settle ok r x = (Rejects e, x).
Proof.
  destruct ok; [|intros _; eexists; apply settle_failed].
  unfold settle, serve. destruct r; [done|..]; intros ->; destruct x; eauto.
Qed.

(** ** clearAll, listAll *)

Lemma getAll_ready (x : world) c d st :
  db x = Some c → find_store c STORE_NAME (indexedDB x) = Some (d, st) →
  await true (getAllImages x) = (Resolved (VRecords (records st)), enter CallGetAll x).
Proof.
  intros Hdb Hf. unfold getAllImages, await.
  rewrite transaction_enter, (transaction_ready x c d st) by done.
  cbn [fst snd]. by erewrite settle_getAll.
Qed.

Lemma clearAll_resolved ok (x x1 : world) v :
  await ok (clearAllImages x) = (Resolved v, x1) →
  ok = true ∧ v = VUndefined ∧
  ∃ c d st, db x = Some c ∧
    find_store c STORE_NAME (indexedDB x) = Some (d, st) ∧
    db x1 = Some c ∧
    indexedDB x1 = set_store c STORE_NAME d (store_clear st) (indexedDB x).
Proof.
  unfold clearAllImages, await. rewrite transaction_enter.
  destruct (transaction x) as [e|c] eqn:Ht; cbn [fst snd]; [done|].
  apply transaction_inr in Ht as [Hdb [[d st] Hf]].
  destruct ok; [|by rewrite settle_failed].
  erewrite settle_clear by exact Hf. intros [= <- <-]. eauto 10.
Qed.

(** C8. A clearAll that succeeded, followed by listAll, gives the empty
    sequence whatever the store held; and listAll on a collection without
    records resolves with the empty sequence, it does not reject. *)
Theorem clearAll_then_listAll_empty :
  (∀ ok (x x1 : world) v,
     await ok (clearAllImages x) = (Resolved v, x1) →
     (await true (getAllImages x1)).1 = Resolved (VRecords [])) ∧
  (∀ (x : world) st,
     current_store x = Some st → records st = [] →
     (await true (getAllImages x)).1 = Resolved (VRecords [])).
Proof.
  split.
  - intros ok x x1 v (_ & _ & c & d & st & _ & _ & Hdb1 & Hidb)%clearAll_resolved.
    assert (Hf := find_store_set c STORE_NAME d (store_clear st) (indexedDB x)).
    rewrite <- Hidb in Hf. by rewrite (getAll_ready x1 c _ _ Hdb1 Hf).
  - intros x st (c & d & Hdb & Hf)%current_store_Some Hnil.
    erewrite getAll_ready by done. simpl. by rewrite Hnil.
Qed.

(** ** deleteById *)

Lemma filter_all {A} (P : A → Prop) `{!∀ x, Decision (P x)} (l : list A) :
  (∀ x, x ∈ l → P x) → filter P l = l.
Proof.
  induction l as [|a l IH]; intros Hall; [done|].
  rewrite filter_cons_True by (apply Hall; left).
  f_equal. apply IH. intros x Hx. apply Hall. by right.
Qed.

Lemma store_delete_absent k s :
  (∀ r, r ∈ records s → id r ≠ k) → store_delete k s = s.
Proof.
  intros Hno. unfold store_delete. rewrite filter_all by done. by destruct s.
Qed.

Lemma deleteById_ready ok k (x : world) c d st :
  db x = Some c → find_store c STORE_NAME (indexedDB x) = Some (d, st) →
  await ok (deleteImageById k x)
  = if ok
    then (Resolved VUndefined,
          with_idb (set_store c STORE_NAME d (store_delete k st) (indexedDB x))
            (enter (CallDelete k) x))
    else (Rejects HostError, enter (CallDelete k) x).
Proof.
  intros Hdb Hf. unfold deleteImageById, await.
  rewrite transaction_enter, (transaction_ready x c d st) by done.
  cbn [fst snd]. destruct ok; [|apply settle_failed].
  by erewrite settle_delete.
Qed.

(** C2. On an open store, deleteById(id) keeps every record whose id differs,
    whole and in its place, adds none, and when it succeeds leaves no record
    with that id; when no record has that id the database is left as it was
    and, unless the host fails the request, the promise resolves. *)
Theorem deleteById_removes_only_that_id :
  ∀ ok k (x : world) st,
    current_store x = Some st →
    ∃ st',
      current_store (await ok (deleteImageById k x)).2 = Some st' ∧
      records st' `sublist_of` records st ∧
      (∀ r, id r ≠ k → r ∈ records st → r ∈ records st') ∧
      (ok = true →
         (await ok (deleteImageById k x)).1 = Resolved VUndefined ∧
         records st' = filter (λ r, id r ≠ k) (records st)) ∧
      ((∀ r, r ∈ records st → id r ≠ k) →
         indexedDB (await ok (deleteImageById k x)).2 = indexedDB x ∧
         db (await ok (deleteImageById k x)).2 = db x ∧
         st' = st).
Proof.
  intros ok k x st (c & d & Hdb & Hf)%current_store_Some.
  rewrite (deleteById_ready ok k x c d st Hdb Hf). destruct ok; cbn [fst snd].
  - exists (store_delete k st). split_and!.
    + apply current_store_Some. do 2 eexists. split; [exact Hdb|]. apply find_store_set.
    + apply sublist_filter.
    + intros r Hne Hr. apply list_elem_of_filter. done.
    + done.
    + intros Hno. rewrite (store_delete_absent k st Hno).
      by rewrite (set_store_same c STORE_NAME d st _ Hf).
  - exists st. split_and!; [|done| |done|done].
    + apply current_store_Some. eauto.
    + auto.
Qed.

(** ** insert *)

Lemma put_in_key_order_last r l :
  (∀ x, x ∈ l → (id x < id r)%Z) → put_in_key_order r l = l ++ [r].
Proof.
  induction l as [|a l IH]; intros Hlt; [done|]. simpl.
  assert (id a < id r)%Z as Ha by (apply Hlt; left).
  destruct (Z.ltb_spec (id r) (id a)); [lia|].
  f_equal. apply IH. intros x Hx. apply Hlt. by right.
Qed.

Lemma has_key_below k l :
  (∀ x, x ∈ l → (id x < k)%Z) → has_key k l = false.
Proof.
  induction l as [|a l IH]; intros Hlt; [done|]. simpl.
  assert (id a < k)%Z as Ha by (apply Hlt; left).
  destruct (Z.eqb_spec (id a) k); [lia|]. simpl.
  apply IH. intros x Hx. apply Hlt. by right.
Qed.

Lemma store_add_below it s :
  keys_below s →
  store_add it s
  = if (max_generated_key <? keygen s)%Z then inl ConstraintError
    else inr (keygen s,
              {| records := records s ++ [with_key (keygen s) it];
                 keygen := (keygen s + 1)%Z |}).
Proof.
  intros Hs. unfold store_add. destruct (max_generated_key <? keygen s)%Z; [done|].
  rewrite has_key_below by done. by rewrite put_in_key_order_last.
Qed.

Lemma keys_below_add it s :
  keys_below s →
  keys_below {| records := records s ++ [with_key (keygen s) it];
                keygen := (keygen s + 1)%Z |}.
Proof.
  intros Hs r. simpl. rewrite elem_of_app, list_elem_of_singleton.
  intros [Hr| ->]; [apply Hs in Hr; lia|simpl; lia].
Qed.

Lemma addImageBlob_ready H ok n b (x : world) c d st :
  db x = Some c → find_store c STORE_NAME (indexedDB x) = Some (d, st) →
  await ok (addImageBlob H n b x)
  = let it := {| i_name := n; i_blob := b; i_created := Date_now H (clock_reads x) |} in
    let x' := tick (enter (CallAdd n) x) in
    if ok
    then match store_add it st with
         | inl e => (Rejects e, x')
         | inr (k, s') =>
             (Resolved (VKey k), with_idb (set_store c STORE_NAME d s' (indexedDB x)) x')
         end
    else (Rejects HostError, x').
Proof.
  intros Hdb Hf. unfold addImageBlob, await.
  rewrite transaction_enter, (transaction_ready x c d st) by done.
  cbn [fst snd]. destruct ok; [|apply settle_failed].
  by erewrite settle_add.
Qed.

Lemma insert_all_resolved H xs : ∀ (x : world) c d st,
  db x = Some c → find_store c STORE_NAME (indexedDB x) = Some (d, st) →
  keys_below st →
  Forall (λ r, ∃ v, r = Resolved v) (insert_all H xs x).1 →
  ∃ d' st',
    db (insert_all H xs x).2 = Some c ∧
    find_store c STORE_NAME (indexedDB (insert_all H xs x).2) = Some (d', st') ∧
    records st' = records st ++ inserted H (keygen st) (clock_reads x) xs ∧
    (insert_all H xs x).1
      = (λ r, Resolved (VKey (id r))) <$> inserted H (keygen st) (clock_reads x) xs.
Proof.
  induction xs as [|[[n b] ok] xs IH]; intros x c d st Hdb Hf Hk Hres.
  - simpl. rewrite app_nil_r. by exists d, st.
  - cbn [insert_all fst snd] in Hres |- *.
    pose proof (addImageBlob_ready H ok n b x c d st Hdb Hf) as Ha.
    cbn zeta in Ha. rewrite store_add_below in Ha by done.
    apply Forall_cons in Hres as [[v Hv] Hres].
    destruct ok; [|by rewrite Ha in Hv].
    destruct (max_generated_key <? keygen st)%Z; [by rewrite Ha in Hv|].
    rewrite Ha in Hres |- *. cbn [fst snd] in Hres |- *.
    match type of Hres with
    | Forall _ (insert_all _ _ ?x1).1 =>
        destruct (IH x1 c _ _ Hdb (find_store_set c STORE_NAME d _ (indexedDB x))
                    (keys_below_add _ st Hk) Hres)
          as (d' & st' & Hdb' & Hf' & Hrec & Hkeys)
    end.
    exists d', st'. split_and!; [done..| |].
    + rewrite Hrec. cbn [records keygen clock_reads with_idb tick enter inserted with_key
                         i_name i_blob i_created].
      by rewrite <- app_assoc.
    + rewrite Hkeys. done.
Qed.

Lemma fields_inserted H k t xs :
  fields <$> inserted H k t xs
  = imap (λ i y, (y.1.1, y.1.2, Date_now H (t + i))) xs.
Proof.
  revert k t. induction xs as [|[[n b] ok] xs IH]; intros k t; [done|].
  simpl. unfold fields at 1. simpl. rewrite Nat.add_0_r. f_equal.
  rewrite IH. apply imap_ext. intros i y _. simpl. do 2 f_equal. lia.
Qed.

Lemma ids_inserted H k t xs :
  id <$> inserted H k t xs = seqZ k (Z.of_nat (length xs)).
Proof.
  revert k t. induction xs as [|[[n b] ok] xs IH]; intros k t; [done|].
  cbn [inserted fmap list_fmap length]. rewrite IH.
  rewrite (seqZ_cons k) by lia. cbn [id]. do 2 f_equal; lia.
Qed.

(** C1. On a store without records, after any run of inserts that all
    succeeded, listAll resolves with one record per insert, in insertion
    order, holding the inserted name and blob and the clock reading taken at
    its insert; the ids are pairwise distinct, and each insert resolved with
    the id of its record. *)
Theorem listAll_after_inserts :
  ∀ H xs (x : world) st,
    current_store x = Some st → records st = [] →
    Forall (λ r, ∃ v, r = Resolved v) (insert_all H xs x).1 →
    ∃ rs,
      (await true (getAllImages (insert_all H xs x).2)).1 = Resolved (VRecords rs) ∧
      fields <$> rs = imap (λ i y, (y.1.1, y.1.2, Date_now H (clock_reads x + i))) xs ∧
      NoDup (id <$> rs) ∧
      (insert_all H xs x).1 = (λ r, Resolved (VKey (id r))) <$> rs.
Proof.
  intros H xs x st (c & d & Hdb & Hf)%current_store_Some Hnil Hres.
  destruct (insert_all_resolved H xs x c d st Hdb Hf) as (d' & st' & Hdb' & Hf' & Hrec & Hkeys);
    [by intros r; rewrite Hnil; intros ?%elem_of_nil | done |].
  rewrite Hnil in Hrec. simpl in Hrec.
  exists (records st'). split_and!.
  - by rewrite (getAll_ready _ c d' st' Hdb' Hf').
  - rewrite Hrec. apply fields_inserted.
  - rewrite Hrec, ids_inserted. apply NoDup_seqZ.
  - by rewrite Hrec.
Qed.

(** ** initialize *)

Lemma openDB_await ok (x : world) :
  await ok (openDB x) = settle ok (ReqOpen DB_NAME DB_VERSION) (enter CallOpen x).
Proof. done. Qed.

Lemma factory_open_inr n v f c f' :
  factory_open n v f = inr (c, f') →
  c = {| conn_no := length (connections f); conn_db := n |} ∧
  connections f' = connections f ++ [c] ∧
  ∃ d, databases f' = <[n := d]> (databases f) ∧ version d = v ∧
       (∀ d0, databases f !! n = Some d0 → version d0 = v → d = d0).
Proof.
  unfold factory_open.
  set (d := default _ _).
  destruct (Z.ltb_spec v (version d)); [done|].
  intros [= <- <-]. split_and!; [done..|]. eexists. split_and!; [done| |].
  - destruct (Z.ltb_spec (version d) v); simpl; lia.
  - intros d0 Hd0 Hv. subst d. rewrite Hd0 in *. simpl in *.
    destruct (Z.ltb_spec (version d0) v); [lia|done].
Qed.

Lemma openDB_resolved ok (x x1 : world) v :
  await ok (openDB x) = (Resolved v, x1) →
  ∃ c f', factory_open DB_NAME DB_VERSION (indexedDB x) = inr (c, f') ∧
          v = VDb c ∧ db x1 = Some c ∧ indexedDB x1 = f'.
Proof.
  rewrite openDB_await. unfold settle, serve.
  destruct ok; cbn [negb]; [|done]. cbn [indexedDB enter].
  destruct (factory_open DB_NAME DB_VERSION (indexedDB x)) as [e|[c f']]; [done|].
  intros [= <- <-]. by exists c, f'.
Qed.

(** C5 as amended. After an initialize that succeeded, a second one succeeds
    too and leaves every database, collection and record as it was; it does
    not return the existing handle: it opens one more connection to the same
    database, and that new connection becomes the module's handle. *)
Theorem openDB_again_keeps_databases :
  ∀ ok (x x1 : world) v,
    await ok (openDB x) = (Resolved v, x1) →
    ∃ c c',
      v = VDb c ∧ db x1 = Some c ∧
      (await true (openDB x1)).1 = Resolved (VDb c') ∧
      databases (indexedDB (await true (openDB x1)).2) = databases (indexedDB x1) ∧
      db (await true (openDB x1)).2 = Some c' ∧
      conn_db c' = conn_db c ∧ conn_no c' = S (conn_no c) ∧
      connections (indexedDB (await true (openDB x1)).2)
        = connections (indexedDB x1) ++ [c'].
Proof.
  intros ok x x1 v (c & f' & Hopen & -> & Hdb & Hidb)%openDB_resolved.
  apply factory_open_inr in Hopen as (Hc & Hconn & d & Hdbs & Hver & _).
  destruct (factory_open DB_NAME DB_VERSION (indexedDB x1)) as [e|[c' f2]] eqn:Hopen2.
  { unfold factory_open in Hopen2. rewrite Hidb, Hdbs, lookup_insert_eq in Hopen2.
    simpl in Hopen2. rewrite Hver, Z.ltb_irrefl in Hopen2. done. }
  pose proof Hopen2 as (Hc' & Hconn' & d' & Hdbs' & Hver' & Hsame)%factory_open_inr.
  assert (d' = d) as ->.
  { apply Hsame; [|done]. by rewrite Hidb, Hdbs, lookup_insert_eq. }
  exists c, c'. rewrite openDB_await. unfold settle, serve. cbn [negb indexedDB enter].
  rewrite Hopen2. cbn [fst snd indexedDB db]. split_and!; try done.
  - rewrite Hdbs', Hidb, Hdbs. apply insert_insert_eq.
  - by rewrite Hc', Hc.
  - rewrite Hc', Hc. cbn [conn_no]. rewrite Hidb, Hconn, length_app. simpl. lia.
Qed.

(** ** Escaping of names in the rendered cards *)

Lemma entity_cases c :
  (c = "&"%char ∧ entity c = "&amp;") ∨ (c = "<"%char ∧ entity c = "&lt;") ∨
  (c = ">"%char ∧ entity c = "&gt;") ∨ (c = dquote ∧ entity c = "&quot;") ∨
  (c = "'"%char ∧ entity c = "&#39;") ∨
  (Ascii.eqb c "&" = false ∧ is_markup_char c = false ∧ entity c = String c EmptyString).
Proof.
  unfold entity, is_markup_char.
  destruct (Ascii.eqb_spec c "&"); [auto|].
  destruct (Ascii.eqb_spec c "<"); [auto 10|].
  destruct (Ascii.eqb_spec c ">"); [auto 10|].
  destruct (Ascii.eqb_spec c dquote); [auto 10|].
  destruct (Ascii.eqb_spec c "'"); [auto 10|].
  auto 10.
Qed.

Lemma replace_markup_chars_escaped s :
  escaped_text (replace_markup_chars s) = true.
Proof.
  induction s as [|c s IH]; [done|]. cbn [replace_markup_chars].
  destruct (entity_cases c) as [[-> ->]|[[-> ->]|[[-> ->]|[[-> ->]|[[-> ->]|(Hc & Hm & ->)]]]]];
    try (cbv -[replace_markup_chars]; exact IH).
  cbv [String.append]. cbn [escaped_text]. rewrite Hc, Hm. exact IH.
Qed.

Lemma replace_markup_chars_unescape s :
  unescape 0 (replace_markup_chars s) = s.
Proof.
  induction s as [|c s IH]; [done|]. cbn [replace_markup_chars].
  destruct (entity_cases c) as [[-> ->]|[[-> ->]|[[-> ->]|[[-> ->]|[[-> ->]|(Hc & Hm & ->)]]]]];
    try (rewrite <- IH at 2; cbv -[replace_markup_chars]; reflexivity).
  cbv [String.append]. cbn [unescape]. rewrite Hc. cbn [negb]. by rewrite IH.
Qed.

Lemma escaped_text_no_markup_char s :
  escaped_text s = true →
  ∀ c, c ∈ String.list_ascii_of_string s → is_markup_char c = false.
Proof.
  induction s as [|a s IH]; cbn; intros He c Hc; [by apply elem_of_nil in Hc|].
  apply andb_true_iff in He as [Ha Hs].
  apply elem_of_cons in Hc as [->|Hc]; [|by apply IH].
  destruct (Ascii.eqb_spec a "&") as [->|_]; [done|].
  by apply negb_true_iff in Ha.
Qed.

(** ** Sorting and rendering *)

Lemma sort_insert_perm {A} (cmp : A → A → Z) x l :
  sort_insert cmp x l ≡ₚ x :: l.
Proof.
  induction l as [|y l IH]; [done|]. simpl.
  destruct (cmp x y <=? 0)%Z; [done|].
  rewrite IH. apply Permutation_swap.
Qed.

Lemma Array_sort_perm {A} (cmp : A → A → Z) l : Array_sort cmp l ≡ₚ l.
Proof.
  induction l as [|x l IH]; [done|]. unfold Array_sort in *. simpl.
  by rewrite sort_insert_perm, IH.
Qed.

Lemma sort_insert_newest_first x l :
  StronglySorted newer_or_same l →
  StronglySorted newer_or_same (sort_insert newest_first x l).
Proof.
  induction l as [|y l IH]; intros Hl.
  - repeat constructor.
  - apply StronglySorted_cons in Hl as [Hy Hl]. simpl. unfold newest_first at 1.
    destruct (Z.leb_spec (created y - created x) 0).
    + apply StronglySorted_cons. split; [|by apply StronglySorted_cons].
      constructor; [unfold newer_or_same; lia|].
      eapply Forall_impl; [exact Hy|]. unfold newer_or_same. intros z Hz. simpl in Hz. lia.
    + apply StronglySorted_cons. split; [|by apply IH].
      rewrite sort_insert_perm. constructor; [unfold newer_or_same; lia|done].
Qed.

Lemma Array_sort_newest_first l :
  StronglySorted newer_or_same (Array_sort newest_first l).
Proof.
  induction l as [|x l IH]; [constructor|].
  unfold Array_sort in *. simpl. by apply sort_insert_newest_first.
Qed.

Lemma render_gallery H items s :
  galleryGrid (render H items s)
  = gallery_of H (object_urls s) (Array_sort newest_first items).
Proof. unfold render. by destruct (Array_sort newest_first items). Qed.

Lemma cards_Forall H (P : element → Prop) items : ∀ n,
  (∀ i it, it ∈ items →
     P (Div "card-item" (card_html (createObjectURL H i) it) (Some (id it)))) →
  Forall P (cards H n items).
Proof.
  induction items as [|it items IH]; intros n HP; [constructor|].
  simpl. constructor; [apply HP; left|].
  apply IH. intros i it' Hit. apply HP. by right.
Qed.

Lemma cards_elem_of H it items : ∀ n,
  it ∈ items →
  ∃ i, Div "card-item" (card_html (createObjectURL H i) it) (Some (id it))
         ∈ cards H n items.
Proof.
  induction items as [|a items IH]; intros n Hin; [by apply elem_of_nil in Hin|].
  apply elem_of_cons in Hin as [->|Hin].
  - exists n. simpl. left.
  - destruct (IH (S n) Hin) as [i Hi]. exists i. simpl. by right.
Qed.

Lemma string_app_cons c s1 s2 : String c s1 +:+ s2 = String c (s1 +:+ s2).
Proof. reflexivity. Qed.

Lemma string_app_assoc s1 s2 s3 : (s1 +:+ s2) +:+ s3 = s1 +:+ (s2 +:+ s3).
Proof.
  induction s1 as [|c s1 IH]; [done|]. by rewrite !string_app_cons, IH.
Qed.

Lemma string_length_app s1 s2 :
  String.length (s1 +:+ s2) = (String.length s1 + String.length s2)%nat.
Proof.
  induction s1 as [|c s1 IH]; [done|]. rewrite string_app_cons. simpl. by rewrite IH.
Qed.

Lemma entity_length c :
  (is_special c = true ∧ (4 ≤ String.length (entity c) ≤ 6)%nat ∧
   ∃ t, entity c = String "&" t) ∨
  (is_special c = false ∧ entity c = String c EmptyString).
Proof.
  unfold is_special.
  destruct (entity_cases c) as [[-> ->]|[[-> ->]|[[-> ->]|[[-> ->]|[[-> ->]|(Hc & Hm & ->)]]]]];
    try (left; split_and!; [reflexivity|simpl; lia|simpl; lia|eexists; reflexivity]).
  right. by rewrite Hc, Hm.
Qed.

Lemma replace_markup_chars_length s :
  (String.length s ≤ String.length (replace_markup_chars s) ≤ 6 * String.length s)%nat.
Proof.
  induction s as [|c s IH]; [simpl; lia|]. cbn [replace_markup_chars].
  rewrite string_length_app.
  destruct (entity_length c) as [(_ & Hlen & _)|[_ ->]]; cbn [String.length]; lia.
Qed.

Lemma string_app_nil_r s : s +:+ EmptyString = s.
Proof. induction s as [|c s IH]; [done|]. by rewrite string_app_cons, IH. Qed.

Lemma tok_run_app a s1 s2 : tok_run a (s1 +:+ s2) = tok_run (tok_run a s1) s2.
Proof.
  revert a. induction s1 as [|c s1 IH]; intros a; [done|].
  rewrite string_app_cons. cbn [tok_run]. apply IH.
Qed.

Lemma tok_run_text out txt s :
  lacks "<" s = true → tok_run (out, SText txt) s = (out, SText (txt +:+ s)).
Proof.
  revert txt. induction s as [|c s IH]; intros txt Hs.
  - by rewrite string_app_nil_r.
  - cbn [lacks] in Hs. apply andb_true_iff in Hs as [Hc Hs].
    apply negb_true_iff in Hc. cbn [tok_run tok_step]. rewrite Hc.
    rewrite IH by done. unfold snoc. by rewrite string_app_assoc.
Qed.

Lemma tok_run_value out q name attrs an v s :
  lacks q s = true →
  tok_run (out, SValue q name attrs an v) s = (out, SValue q name attrs an (v +:+ s)).
Proof.
  revert v. induction s as [|c s IH]; intros v Hs.
  - by rewrite string_app_nil_r.
  - cbn [lacks] in Hs. apply andb_true_iff in Hs as [Hc Hs].
    apply negb_true_iff in Hc. cbn [tok_run tok_step]. rewrite Hc.
    rewrite IH by done. unfold snoc. by rewrite string_app_assoc.
Qed.

Ltac tok_eval :=
  repeat match goal with
  | |- context [tok_run (?o, SText ?t) ?s] =>
      rewrite (tok_run_text o t s) by assumption
  | |- context [tok_run (?o, SValue ?q ?n ?a ?an ?v) ?s] =>
      rewrite (tok_run_value o q n a an v s) by assumption
  | |- context [tok_run (?o, ?st) ?s] =>
      let r := eval vm_compute in (tok_run (o, st) s) in
      change (tok_run (o, st) s) with r
  end.

Ltac find_token :=
  cbn [app]; repeat first [apply list_elem_of_here | apply list_elem_of_further].

Lemma tokenize_card url alt caption data_id :
  lacks dquote url = true → lacks dquote alt = true →
  lacks "<" caption = true → lacks dquote data_id = true →
  tokenize (card_template url alt url caption data_id) = card_dom url alt caption data_id.
Proof.
  intros Hu Ha Hc Hd. unfold tokenize, card_template, attr.
  rewrite !string_app_assoc. rewrite !tok_run_app.
  tok_eval.
  unfold card_dom. destruct caption; reflexivity.
Qed.

Lemma lacks_app c s1 s2 : lacks c (s1 +:+ s2) = lacks c s1 && lacks c s2.
Proof.
  induction s1 as [|a s1 IH]; [done|]. rewrite string_app_cons. cbn [lacks].
  by rewrite IH, andb_assoc.
Qed.

Lemma escaped_text_lacks s :
  escaped_text s = true → lacks "<" s = true ∧ lacks dquote s = true.
Proof.
  induction s as [|a s IH]; [done|]. cbn [escaped_text lacks].
  intros [Ha Hs]%andb_true_iff. destruct (IH Hs) as [-> ->]. rewrite !andb_true_r.
  destruct (Ascii.eqb_spec a "&") as [->|_]; [done|].
  apply negb_true_iff in Ha. unfold is_markup_char in Ha.
  apply orb_false_iff in Ha as [Ha _]. apply orb_false_iff in Ha as [Ha Hq].
  apply orb_false_iff in Ha as [Hlt _]. by rewrite Hlt, Hq.
Qed.

Lemma lacks_pretty_N_go x : ∀ s,
  lacks dquote s = true → lacks dquote (pretty_N_go x s) = true.
Proof.
  induction (N.lt_wf_0 x) as [x _ IH]; intros s Hs.
  assert (x = 0 ∨ 0 < x)%N as [->|Hx] by lia; [by rewrite pretty_N_go_0|].
  rewrite pretty_N_go_step by done. apply IH; [by apply N.div_lt|].
  cbn [lacks]. rewrite Hs, andb_true_r.
  unfold pretty_N_char. by repeat case_match.
Qed.

Lemma lacks_pretty_N (x : N) : lacks dquote (pretty x) = true.
Proof.
  unfold pretty, pretty_N. case_decide; [done|]. by apply lacks_pretty_N_go.
Qed.

Lemma lacks_pretty_Z (z : Z) : lacks dquote (pretty z) = true.
Proof.
  destruct z as [|x|x]; [done|apply lacks_pretty_N|].
  unfold pretty, pretty_Z. rewrite lacks_app.
  apply andb_true_iff. split; [done|apply lacks_pretty_N].
Qed.

Lemma host_with_clock_urls ts : urls_quote_free (host_with_clock ts).
Proof.
  intros n. cbn [createObjectURL host_with_clock]. rewrite lacks_app.
  apply andb_true_iff. split; [done|apply lacks_pretty_N].
Qed.

(** C4. With blob URLs that hold no double quote, whatever the records, every
    child of the rendered gallery is the empty-gallery paragraph or the card
    of one record, and what a browser reads from the markup of that card is
    always the same tags: the record's name (or the fallback) is there only
    as the value of the image's [alt] and as the text of the caption, never
    as a tag or an attribute of its own.  Both are escaped texts: no [<], [>]
    or quote in them, every [&] starts a character reference, and read back
    they give the name.  The name [<script>] is rendered as
    [&lt;script&gt;]. *)
Theorem rendered_names_are_escaped :
  ∀ H items s,
    urls_quote_free H →
    Forall (λ el,
      el = Markup empty_gallery_html ∨
      ∃ it url alt caption,
        it ∈ items ∧
        el = Div "card-item" (card_template url alt url caption (pretty (id it)))
               (Some (id it)) ∧
        tokenize (innerHTML_of el) = card_dom url alt caption (pretty (id it)) ∧
        TOpen "img" [("alt", alt); ("src", url)] ∈ tokenize (innerHTML_of el) ∧
        TText caption ∈ tokenize (innerHTML_of el) ∧
        escaped_text alt = true ∧ escaped_text caption = true ∧
        (∀ c, c ∈ String.list_ascii_of_string alt ∨
              c ∈ String.list_ascii_of_string caption →
              is_markup_char c = false) ∧
        unescape 0 alt = ToString (js_or (name it) "photo") ∧
        unescape 0 caption = ToString (js_or (name it) "Untitled"))
      (galleryGrid (render H items s))
    ∧ escapeHtml (JString "<script>") = "&lt;script&gt;".
Proof.
  intros H items s Hurl. split; [|done].
  rewrite render_gallery. unfold gallery_of.
  destruct (Array_sort newest_first items) as [|a l] eqn:Hsort.
  { constructor; [by left|constructor]. }
  rewrite <- Hsort. apply cards_Forall. intros i it Hit. right.
  exists it, (createObjectURL H i), (escapeHtml (js_or (name it) "photo")),
    (escapeHtml (js_or (name it) "Untitled")).
  pose proof (replace_markup_chars_escaped (ToString (js_or (name it) "photo"))) as Halt.
  pose proof (replace_markup_chars_escaped (ToString (js_or (name it) "Untitled"))) as Hcap.
  fold (escapeHtml (js_or (name it) "photo")) in Halt.
  fold (escapeHtml (js_or (name it) "Untitled")) in Hcap.
  assert (tokenize (card_html (createObjectURL H i) it)
          = card_dom (createObjectURL H i) (escapeHtml (js_or (name it) "photo"))
              (escapeHtml (js_or (name it) "Untitled")) (pretty (id it))) as Htok.
  { apply tokenize_card; [apply Hurl|by apply escaped_text_lacks in Halt as [_ ?]
                          |by apply escaped_text_lacks in Hcap as [? _]
                          |apply lacks_pretty_Z]. }
  assert (escapeHtml (js_or (name it) "Untitled") ≠ EmptyString) as Hne.
  { unfold escapeHtml. intros Hempty.
    pose proof (replace_markup_chars_length (ToString (js_or (name it) "Untitled"))) as Hlen.
    rewrite Hempty in Hlen. cbn [String.length] in Hlen.
    unfold js_or in Hlen. destruct (name it) as [| |[|c t]]; cbn in Hlen; lia. }
  cbn [innerHTML_of]. rewrite Htok.
  split_and!.
  - by rewrite <- (Array_sort_perm newest_first items).
  - done.
  - done.
  - unfold card_dom. find_token.
  - unfold card_dom. destruct (escapeHtml (js_or (name it) "Untitled")); [done|].
    cbn [emit_text]. find_token.
  - exact Halt.
  - exact Hcap.
  - intros c [Hc|Hc]; (eapply escaped_text_no_markup_char; [|exact Hc]); done.
  - apply replace_markup_chars_unescape.
  - apply replace_markup_chars_unescape.
Qed.

(** C10. With blob URLs that hold no double quote, every record given to
    the renderer whose name is absent (undefined), null or the empty string
    gets a card whose markup is not empty: a browser reads from it the image
    with the alt text [photo] and the caption [Untitled], within the tags of
    every card. *)
Theorem nameless_record_fallbacks :
  ∀ H items s,
    urls_quote_free H →
    Forall (λ it,
      name it ∈ [JUndefined; JNull; JString EmptyString] →
      ∃ url html,
        Div "card-item" html (Some (id it)) ∈ galleryGrid (render H items s) ∧
        html = card_template url "photo" url "Untitled" (pretty (id it)) ∧
        tokenize html = card_dom url "photo" "Untitled" (pretty (id it)) ∧
        TOpen "img" [("alt", "photo"); ("src", url)] ∈ tokenize html ∧
        [TOpen "div" [("class", "meta-left")]; TText "Untitled"; TClose "div"]
          `sublist_of` tokenize html)
      items.
Proof.
  intros H items s Hurl. apply Forall_forall. intros it Hit Hname.
  rewrite render_gallery. unfold gallery_of.
  assert (it ∈ Array_sort newest_first items) as Hin
    by by rewrite (Array_sort_perm newest_first items).
  destruct (Array_sort newest_first items) as [|a l] eqn:Hsort;
    [by apply elem_of_nil in Hin|].
  destruct (cards_elem_of H it (a :: l) (object_urls s) Hin) as [i Hi].
  exists (createObjectURL H i), (card_html (createObjectURL H i) it).
  assert (card_html (createObjectURL H i) it
          = card_template (createObjectURL H i) "photo" (createObjectURL H i)
              "Untitled" (pretty (id it))) as Hhtml.
  { unfold card_html.
    repeat (apply elem_of_cons in Hname as [->|Hname]; [done|]).
    by apply elem_of_nil in Hname. }
  assert (tokenize (card_html (createObjectURL H i) it)
          = card_dom (createObjectURL H i) "photo" "Untitled" (pretty (id it))) as Htok.
  { rewrite Hhtml. apply tokenize_card; [apply Hurl|done|done|apply lacks_pretty_Z]. }
  rewrite Htok. split_and!; [done|done|done|unfold card_dom; find_token|].
  unfold card_dom. cbn [emit_text app].
  do 7 apply sublist_cons. do 3 apply sublist_skip. apply sublist_nil_l.
Qed.

(** ** refreshGallery *)

Lemma set_w_same s : set_w (w s) s = s.
Proof. by destruct s. Qed.

Lemma refreshGallery_ready H s c d st :
  db (w s) = Some c → find_store c STORE_NAME (indexedDB (w s)) = Some (d, st) →
  refreshGallery H s
  = push_request (ReqGetAll c STORE_NAME) KListed (set_w (enter CallGetAll (w s)) s).
Proof.
  intros Hdb Hf. unfold refreshGallery, getAllImages.
  by rewrite transaction_enter, (transaction_ready _ c d st).
Qed.

Lemma step_served_listed H s c st q d s0 :
  inflight s = (ReqGetAll c st, KListed) :: q →
  find_store c st (indexedDB (w s)) = Some (d, s0) →
  step H s (Served true) = render H (records s0) (set_inflight q s).
Proof.
  intros Hq Hf. unfold step. rewrite Hq.
  rewrite (settle_getAll c st (w s) d s0 Hf). by rewrite set_w_same.
Qed.

Lemma cards_imap H items : ∀ n,
  cards H n items
  = imap (λ i r, Div "card-item" (card_html (createObjectURL H (n + i)) r) (Some (id r)))
      items.
Proof.
  induction items as [|r items IH]; intros n; [done|].
  cbn [cards imap]. rewrite Nat.add_0_r. f_equal. rewrite IH.
  apply imap_ext. intros i x _. cbn. do 4 f_equal. lia.
Qed.

(** C3. With nothing else in flight on an open store, a refresh whose listAll
    succeeds renders the stored records newest first: the children of the
    grid are, one after the other, the cards of a rearrangement of the listed
    records in which no record comes before one with a larger [created] (the
    [i]-th child is the card of its [i]-th record, with that record's id on
    the Delete button), or, for no record, the empty-gallery paragraph;
    records created at 100, 300, 200 are shown in the order 300, 200, 100. *)
Theorem refreshGallery_newest_first :
  ∀ H s st,
    inflight s = [] → current_store (w s) = Some st →
    ∃ shown,
      shown ≡ₚ records st ∧
      StronglySorted (λ a b, (created b ≤ created a)%Z) shown ∧
      galleryGrid (step H (refreshGallery H s) (Served true))
        = match shown with
          | [] => [Markup empty_gallery_html]
          | _ => imap (λ i r, Div "card-item"
                                (card_html (createObjectURL H (object_urls s + i)) r)
                                (Some (id r)))
                   shown
          end ∧
      (∀ a b c, records st = [a; b; c] →
         created a = 100%Z → created b = 300%Z → created c = 200%Z →
         shown = [b; c; a] ∧
         galleryGrid (step H (refreshGallery H s) (Served true))
           = [ Div "card-item" (card_html (createObjectURL H (object_urls s)) b)
                 (Some (id b));
               Div "card-item" (card_html (createObjectURL H (object_urls s + 1)) c)
                 (Some (id c));
               Div "card-item" (card_html (createObjectURL H (object_urls s + 2)) a)
                 (Some (id a)) ]).
Proof.
  intros H s st Hq (c & d & Hdb & Hf)%current_store_Some.
  assert (galleryGrid (step H (refreshGallery H s) (Served true))
          = gallery_of H (object_urls s) (Array_sort newest_first (records st))) as Hgrid.
  { rewrite (refreshGallery_ready H s c d st Hdb Hf).
    erewrite step_served_listed; [|by cbn; rewrite Hq|exact Hf].
    by rewrite render_gallery. }
  assert (∀ r1 r2 r3, records st = [r1; r2; r3] →
            created r1 = 100%Z → created r2 = 300%Z → created r3 = 200%Z →
            Array_sort newest_first (records st) = [r2; r3; r1]) as Horder.
  { intros r1 r2 r3 -> H1 H2 H3. unfold Array_sort. simpl.
    unfold newest_first. rewrite H2, H3. simpl.
    unfold newest_first. rewrite H1, H2, H3. done. }
  exists (Array_sort newest_first (records st)). split_and!.
  - apply Array_sort_perm.
  - apply Array_sort_newest_first.
  - rewrite Hgrid. unfold gallery_of.
    destruct (Array_sort newest_first (records st)); [done|apply cards_imap].
  - intros r1 r2 r3 Hrec H1 H2 H3. rewrite Hgrid.
    rewrite (Horder r1 r2 r3 Hrec H1 H2 H3). split; [done|].
    cbn [gallery_of cards]. repeat f_equal; lia.
Qed.

(** ** A session whose initialization failed *)

Lemma transaction_closed x : db x = None → transaction x = inl TypeError.
Proof. unfold transaction. by intros ->. Qed.

Lemma handleFile_unavailable H s file :
  unavailable s →
  unavailable (handleFile H s file) ∧
  indexedDB (w (handleFile H s file)) = indexedDB (w s).
Proof.
  intros (Hdb & Hq & Hg). unfold handleFile.
  destruct (negb _); [done|].
  unfold addImageBlob, chain. rewrite transaction_enter.
  rewrite transaction_closed by done. done.
Qed.

Lemma handleFiles_unavailable H files : ∀ s,
  unavailable s →
  unavailable (handleFiles H files s) ∧
  indexedDB (w (handleFiles H files s)) = indexedDB (w s).
Proof.
  unfold handleFiles.
  induction files as [|f files IH]; intros s Hs; [done|]. simpl.
  destruct (handleFile_unavailable H s f Hs) as [Hs' Hidb].
  destruct (IH _ Hs') as [Hs'' Hidb']. split; [done|congruence].
Qed.

Lemma step_unavailable H s e :
  unavailable s →
  unavailable (step H s e) ∧ indexedDB (w (step H s e)) = indexedDB (w s).
Proof.
  intros Hs. pose proof Hs as (Hdb & Hq & Hg).
  destruct e as [files|files|confirmed|n confirmed|ok|n]; simpl.
  - by apply handleFiles_unavailable.
  - by apply handleFiles_unavailable.
  - destruct confirmed; [|done]. simpl.
    unfold clearAllImages, chain. rewrite transaction_enter.
    by rewrite transaction_closed.
  - rewrite Hg. by destruct n as [|[|n]].
  - by rewrite Hq.
  - by destruct (reading s !! n).
Qed.

Lemma run_unavailable H es : ∀ s,
  unavailable s →
  unavailable (run H s es) ∧ indexedDB (w (run H s es)) = indexedDB (w s).
Proof.
  unfold run.
  induction es as [|e es IH]; intros s Hs; [done|]. simpl.
  destruct (step_unavailable H s e Hs) as [Hs' Hidb].
  destruct (IH _ Hs') as [Hs'' Hidb']. split; [done|congruence].
Qed.

Lemma refreshGallery_db H s : db (w (refreshGallery H s)) = db (w s).
Proof.
  unfold refreshGallery, getAllImages. rewrite transaction_enter.
  destruct (transaction (w s)); done.
Qed.

Lemma init_failed_unavailable H dbs ok :
  db (w (step H (loaded H dbs) (Served ok))) = None →
  unavailable (step H (loaded H dbs) (Served ok)).
Proof.
  unfold loaded, chain, openDB. cbn [fst snd step push_request inflight app w set_w].
  destruct (settle ok _ _) as [res x] eqn:Hsettle.
  destruct res as [v|e]; cbn [react].
  - rewrite refreshGallery_db. cbn [w set_inflight set_w].
    change (settle ok _ _) with (await ok (openDB (fresh_world dbs))) in Hsettle.
    apply openDB_resolved in Hsettle as (c & f' & _ & _ & Hdb & _). congruence.
  - intros Hdb. split_and!; [exact Hdb|done..].
Qed.

(** C6 as amended. When initialization fails the grid shows the message that
    browser storage is not available, and for the rest of the session,
    whatever the user does, the message stays, no request reaches the
    database and the stored databases stay as they were.  The store functions
    themselves are still entered by later actions (a dropped image calls the
    insert, a confirmed clear-all calls clearAll); each such call fails
    before it starts a transaction. *)
Theorem failed_init_no_database_request :
  ∀ H dbs ok es,
    db (w (step H (loaded H dbs) (Served ok))) = None →
    galleryGrid (run H (step H (loaded H dbs) (Served ok)) es)
      = [Markup storage_unavailable_html] ∧
    inflight (run H (step H (loaded H dbs) (Served ok)) es) = [] ∧
    db (w (run H (step H (loaded H dbs) (Served ok)) es)) = None ∧
    databases (indexedDB (w (run H (step H (loaded H dbs) (Served ok)) es))) = dbs.
Proof.
  intros H dbs ok es Hfail.
  pose proof (init_failed_unavailable H dbs ok Hfail) as Hun.
  destruct (run_unavailable H es _ Hun) as [(Hdb & Hq & Hg) Hidb].
  split_and!; [done..|]. rewrite Hidb.
  revert Hfail. unfold loaded, chain, openDB.
  cbn [fst snd step push_request inflight app w set_w].
  destruct (settle ok _ _) as [res x] eqn:Hsettle.
  destruct res as [v|e]; cbn [react].
  - rewrite refreshGallery_db. cbn [w set_inflight set_w].
    change (settle ok _ _) with (await ok (openDB (fresh_world dbs))) in Hsettle.
    apply openDB_resolved in Hsettle as (c & f' & _ & _ & Hdb' & _). congruence.
  - intros _. cbn [w set_gallery console_error set_inflight set_w].
    unfold settle in Hsettle. cbn [indexedDB enter] in Hsettle.
    unfold serve in Hsettle. destruct ok; cbn [negb] in Hsettle.
    + destruct (factory_open _ _ _) as [e'|[c f']]; simplify_eq/=; done.
    + simplify_eq/=. done.
Qed.

(** ** A batch of dropped files *)

Lemma run_cons H s e es : run H s (e :: es) = run H (step H s e) es.
Proof. done. Qed.

Lemma run_app H s es1 es2 : run H s (es1 ++ es2) = run H (run H s es1) es2.
Proof. apply foldl_app. Qed.

Lemma handleFile_ready H s file c d st :
  db (w s) = Some c → find_store c STORE_NAME (indexedDB (w s)) = Some (d, st) →
  handleFile H s file
  = if is_image file
    then push_request
           (ReqAdd c STORE_NAME
              {| i_name := JString (file_name file); i_blob := file_slice_all file;
                 i_created := Date_now H (clock_reads (w s)) |})
           KAdded
           (set_w (tick (enter (CallAdd (JString (file_name file))) (w s)))
              (set_reading (reading s ++ [file]) s))
    else s.
Proof.
  intros Hdb Hf. unfold handleFile, is_image.
  destruct (startsWith _ _); [|done]. cbn [negb].
  unfold addImageBlob, chain. cbn [w set_reading].
  by rewrite transaction_enter, (transaction_ready _ c d st).
Qed.

Lemma handleFiles_ready H files : ∀ s c d st,
  db (w s) = Some c → find_store c STORE_NAME (indexedDB (w s)) = Some (d, st) →
  inflight (handleFiles H files s)
    = inflight s ++ add_requests c (batch_items H (clock_reads (w s)) files) ∧
  indexedDB (w (handleFiles H files s)) = indexedDB (w s) ∧
  db (w (handleFiles H files s)) = db (w s) ∧
  galleryGrid (handleFiles H files s) = galleryGrid s ∧
  console (handleFiles H files s) = console s ∧
  object_urls (handleFiles H files s) = object_urls s.
Proof.
  unfold handleFiles.
  induction files as [|f files IH]; intros s c d st Hdb Hf.
  - simpl. by rewrite app_nil_r.
  - cbn [foldl batch_items]. rewrite (handleFile_ready H s f c d st Hdb Hf).
    destruct (is_image f); [|by apply (IH s c d st)].
    match goal with |- context [foldl _ ?s1 files] =>
      destruct (IH s1 c d st) as (Hq & Hidb & Hdb' & Hg & Hc & Hu); [done..|]
    end.
    rewrite Hq, Hidb, Hdb', Hg, Hc, Hu.
    cbn. by rewrite <- app_assoc.
Qed.

Lemma step_served_add_failed H s r q :
  inflight s = (r, KAdded) :: q →
  step H s (Served false) = console_error "DB add error" HostError (set_inflight q s).
Proof.
  intros Hq. unfold step. rewrite Hq, settle_failed. by rewrite set_w_same.
Qed.

Lemma step_served_add_ok H s c it q d st :
  inflight s = (ReqAdd c STORE_NAME it, KAdded) :: q →
  db (w s) = Some c → find_store c STORE_NAME (indexedDB (w s)) = Some (d, st) →
  keys_below st → (keygen st ≤ max_generated_key)%Z →
  step H s (Served true)
  = push_request (ReqGetAll c STORE_NAME) KListed
      (set_w
         (enter CallGetAll
            (with_idb
               (set_store c STORE_NAME d
                  {| records := records st ++ [with_key (keygen st) it];
                     keygen := (keygen st + 1)%Z |} (indexedDB (w s)))
               (w s)))
         (set_inflight q s)).
Proof.
  intros Hq Hdb Hf Hk Hmax. unfold step. rewrite Hq.
  rewrite (settle_add c STORE_NAME it (w s) d st Hf), store_add_below by done.
  destruct (Z.ltb_spec max_generated_key (keygen st)); [lia|].
  cbn [react].
  erewrite refreshGallery_ready; [done|exact Hdb|apply find_store_set].
Qed.

Lemma count_ok_le oks : (count_ok oks ≤ length oks)%nat.
Proof. induction oks as [|[] oks IH]; simpl; lia. Qed.

Lemma serve_adds H its : ∀ oks s c d st j,
  length oks = length its →
  db (w s) = Some c → find_store c STORE_NAME (indexedDB (w s)) = Some (d, st) →
  keys_below st → (keygen st + Z.of_nat (length its) ≤ max_generated_key + 1)%Z →
  inflight s = add_requests c its ++ list_requests c j →
  ∃ d' st',
    db (w (run H s (Served <$> oks))) = Some c ∧
    find_store c STORE_NAME (indexedDB (w (run H s (Served <$> oks)))) = Some (d', st') ∧
    records st' = records st ++ batch_stored (keygen st) its oks ∧
    inflight (run H s (Served <$> oks)) = list_requests c (j + count_ok oks) ∧
    galleryGrid (run H s (Served <$> oks)) = galleryGrid s ∧
    object_urls (run H s (Served <$> oks)) = object_urls s ∧
    console (run H s (Served <$> oks))
      = console s ++ replicate (length oks - count_ok oks) ("DB add error", HostError).
Proof.
  induction its as [|it its IH]; intros oks s c d st j Hlen Hdb Hf Hk Hmax Hq.
  - destruct oks; [|done]. simpl. rewrite !app_nil_r, Nat.add_0_r.
    by exists d, st.
  - destruct oks as [|ok oks]; [done|]. injection Hlen as Hlen.
    cbn [fmap list_fmap]. rewrite run_cons.
    cbn [add_requests fmap list_fmap app] in Hq. cbn [length] in Hmax.
    destruct ok.
    + rewrite (step_served_add_ok H s c it _ d st Hq Hdb Hf Hk) by lia.
      match goal with |- context [run H ?s1 _] =>
        destruct (IH oks s1 c _ _ (S j) Hlen Hdb
                    (find_store_set c STORE_NAME d _ (indexedDB (w s)))
                    (keys_below_add it st Hk))
          as (d' & st' & Hdb' & Hf' & Hrec & Hq' & Hg & Hu & Hc)
      end.
      { cbn [keygen]. lia. }
      { cbn [inflight push_request set_w set_inflight].
        unfold list_requests. rewrite <- app_assoc. f_equal.
        change [(ReqGetAll c STORE_NAME, KListed)]
          with (replicate 1 (ReqGetAll c STORE_NAME, KListed)).
        rewrite <- replicate_add. f_equal. lia. }
      exists d', st'. rewrite Hdb', Hf', Hq', Hg, Hu, Hc, Hrec.
      cbn [records keygen batch_stored count_ok length].
      split_and!; try done.
      * by rewrite <- app_assoc.
      * f_equal. lia.
    + rewrite (step_served_add_failed H s _ _ Hq).
      match goal with |- context [run H ?s1 _] =>
        destruct (IH oks s1 c d st j Hlen Hdb Hf Hk)
          as (d' & st' & Hdb' & Hf' & Hrec & Hq' & Hg & Hu & Hc)
      end.
      { lia. }
      { done. }
      exists d', st'. rewrite Hdb', Hf', Hq', Hg, Hu, Hc, Hrec.
      cbn [batch_stored count_ok length console console_error set_inflight].
      split_and!; try done.
      rewrite <- app_assoc. f_equal.
      change [("DB add error", HostError)]
        with (replicate 1 ("DB add error", HostError)).
      rewrite <- replicate_add. f_equal.
      pose proof (count_ok_le oks). lia.
Qed.

Lemma serve_lists H j : ∀ s c d st,
  find_store c STORE_NAME (indexedDB (w s)) = Some (d, st) →
  inflight s = list_requests c j →
  inflight (run H s (replicate j (Served true))) = [] ∧
  w (run H s (replicate j (Served true))) = w s ∧
  console (run H s (replicate j (Served true))) = console s ∧
  (j ≠ 0 →
   ∃ m, galleryGrid (run H s (replicate j (Served true)))
        = gallery_of H m (Array_sort newest_first (records st))).
Proof.
  induction j as [|j IH]; intros s c d st Hf Hq; [done|].
  cbn [replicate]. rewrite run_cons.
  rewrite (step_served_listed H s c STORE_NAME (list_requests c j) d st Hq Hf).
  match goal with |- context [run H ?s1 _] =>
    destruct (IH s1 c d st) as (Hq' & Hw & Hc & Hg)
  end.
  { unfold render. by destruct (Array_sort newest_first (records st)). }
  { unfold render. by destruct (Array_sort newest_first (records st)). }
  rewrite Hq', Hw, Hc. split_and!; [done| | |].
  - unfold render. by destruct (Array_sort newest_first (records st)).
  - unfold render. by destruct (Array_sort newest_first (records st)).
  - intros _. destruct j as [|j]; [|by apply Hg].
    cbn [replicate run foldl]. rewrite render_gallery. eauto.
Qed.

Lemma render_object_urls H items s :
  object_urls (render H items s) = object_urls s + length items.
Proof.
  unfold render.
  pose proof (Permutation_length (Array_sort_perm newest_first items)) as Hlen.
  destruct (Array_sort newest_first items); cbn in *; lia.
Qed.

Lemma serve_lists_urls H j : ∀ s c d st,
  find_store c STORE_NAME (indexedDB (w s)) = Some (d, st) →
  inflight s = list_requests c (S j) →
  galleryGrid (run H s (replicate (S j) (Served true)))
  = gallery_of H (object_urls s + j * length (records st))
      (Array_sort newest_first (records st)).
Proof.
  induction j as [|j IH]; intros s c d st Hf Hq.
  - cbn [replicate]. rewrite run_cons. cbn [run foldl].
    rewrite (step_served_listed H s c STORE_NAME [] d st Hq Hf).
    rewrite render_gallery. cbn [set_inflight object_urls]. f_equal. lia.
  - cbn [replicate]. rewrite run_cons.
    rewrite (step_served_listed H s c STORE_NAME (list_requests c (S j)) d st Hq Hf).
    change (Served true :: replicate j (Served true))
      with (replicate (S j) (Served true)).
    rewrite (IH _ c d st).
    + rewrite render_object_urls. cbn [set_inflight object_urls]. f_equal. lia.
    + unfold render. by destruct (Array_sort newest_first (records st)).
    + unfold render. by destruct (Array_sort newest_first (records st)).
Qed.

Lemma batch_stored_nonempty its : ∀ k oks,
  length oks = length its → count_ok oks ≠ 0 → batch_stored k its oks ≠ [].
Proof.
  induction its as [|it its IH]; intros k [|[] oks] Hlen Hok; try done.
  cbn [batch_stored count_ok] in *. apply IH; [by injection Hlen|done].
Qed.

(** C7. On an open store with nothing in flight, drop a batch of files and
    let the database serve the inserts of the image files, each failing or
    not as the host decides ([oks]), and then the refreshes the successful
    ones started.  When all has settled, the store holds what it held before
    followed by exactly the records of the inserts that succeeded, every
    failed insert has only logged its error, and (when at least one insert
    succeeded) the children of the grid are exactly the cards of the records
    of that final store, newest first, one card per record, each with its
    record's id on the Delete button. *)
Theorem batch_failures_are_isolated :
  ∀ H s st files oks,
    inflight s = [] → current_store (w s) = Some st → keys_below st →
    length oks = length (batch_items H (clock_reads (w s)) files) →
    (keygen st + Z.of_nat (length oks) ≤ max_generated_key + 1)%Z →
    let s' := run H s (Drop files :: (Served <$> oks)
                         ++ replicate (count_ok oks) (Served true)) in
    inflight s' = [] ∧
    console s' = console s
                 ++ replicate (length oks - count_ok oks) ("DB add error", HostError) ∧
    ∃ st',
      current_store (w s') = Some st' ∧
      records st' = records st
                    ++ batch_stored (keygen st)
                         (batch_items H (clock_reads (w s)) files) oks ∧
      (count_ok oks ≠ 0 →
       galleryGrid s'
       = imap (λ i r,
                 Div "card-item"
                   (card_html
                      (createObjectURL H
                         (object_urls s + (count_ok oks - 1) * length (records st') + i))
                      r)
                   (Some (id r)))
           (Array_sort newest_first (records st'))).
Proof.
  intros H s st files oks Hq (c & d & Hdb & Hf)%current_store_Some Hk Hlen Hmax s'.
  subst s'. rewrite run_cons, run_app. cbn [step].
  destruct (handleFiles_ready H files s c d st Hdb Hf)
    as (Hq1 & Hidb1 & Hdb1 & Hg1 & Hc1 & Hu1).
  rewrite Hq in Hq1. cbn [app] in Hq1.
  destruct (serve_adds H (batch_items H (clock_reads (w s)) files) oks
              (handleFiles H files s) c d st 0)
    as (d' & st' & Hdb2 & Hf2 & Hrec & Hq2 & Hg2 & Hu2 & Hc2).
  { done. } { congruence. } { by rewrite Hidb1. } { done. } { lia. }
  { unfold list_requests. by rewrite app_nil_r. }
  destruct (serve_lists H (count_ok oks) _ c d' st' Hf2 Hq2) as (Hq3 & Hw3 & Hc3 & Hg3).
  split_and!.
  - exact Hq3.
  - by rewrite Hc3, Hc2, Hc1.
  - exists st'. split_and!; [|done|].
    + rewrite Hw3. apply current_store_Some. eauto.
    + intros Hok. destruct (count_ok oks) as [|j] eqn:Hj; [done|].
      cbn [Nat.add] in Hq2.
      rewrite (serve_lists_urls H j _ c d' st' Hf2 Hq2), Hu2, Hu1.
      replace (S j - 1) with j by lia.
      assert (Array_sort newest_first (records st') ≠ []) as Hne.
      { intros Hnil. pose proof (Array_sort_perm newest_first (records st')) as Hp.
        rewrite Hnil in Hp. apply Permutation_nil_l in Hp.
        rewrite Hrec in Hp. symmetry in Hp. apply app_eq_nil in Hp as [_ Hp].
        by apply (batch_stored_nonempty _ (keygen st) oks Hlen); [rewrite Hj|]. }
      unfold gallery_of.
      destruct (Array_sort newest_first (records st')); [done|apply cards_imap].
Qed.

(** ** Invariants of the store along a session *)






























(** ** Concrete sessions *)

Lemma keys_below_empty k : keys_below {| records := []; keygen := k |}.
Proof. intros r Hr. by apply elem_of_nil in Hr. Qed.

Lemma listAll_after_inserts_witness :
  ∃ rs,
    (await true (getAllImages
       (insert_all (host_with_clock [100; 300; 200]%Z) three_records opened_world).2)).1
      = Resolved (VRecords rs) ∧
    fields <$> rs
      = imap (λ i y, (y.1.1, y.1.2,
                      Date_now (host_with_clock [100; 300; 200]%Z)
                        (clock_reads opened_world + i)))
          three_records ∧
    NoDup (id <$> rs) ∧
    (insert_all (host_with_clock [100; 300; 200]%Z) three_records opened_world).1
      = (λ r, Resolved (VKey (id r))) <$> rs.
Proof.
  apply (listAll_after_inserts (host_with_clock [100; 300; 200]%Z) three_records
           opened_world empty_store).
  - vm_compute. reflexivity.
  - reflexivity.
  - vm_compute. repeat constructor; eexists; reflexivity.
Defined.

Example listAll_after_three_inserts :
  (await true (getAllImages
     (insert_all (host_with_clock [100; 300; 200]%Z) three_records opened_world).2)).1
  = Resolved (VRecords
      [ {| id := 1; name := JString "a.png"; blob := png_blob; created := 100 |};
        {| id := 2; name := JString "b.png"; blob := png_blob; created := 300 |};
        {| id := 3; name := JString "c.png"; blob := png_blob; created := 200 |} ]).
Proof. vm_compute. reflexivity. Qed.

Lemma deleteById_removes_only_that_id_witness :
  ∃ st',
    current_store
      (await true (deleteImageById 2
         (insert_all (host_with_clock [100; 300; 200]%Z) three_records opened_world).2)).2
      = Some st' ∧
    id <$> records st' = [1; 3]%Z.
Proof.
  destruct (deleteById_removes_only_that_id true 2
              (insert_all (host_with_clock [100; 300; 200]%Z) three_records opened_world).2
              {| records := inserted (host_with_clock [100; 300; 200]%Z) 1 0 three_records;
                 keygen := 4 |})
    as (st' & Hst & _ & _ & Hok & _).
  - vm_compute. reflexivity.
  - exists st'. split; [exact Hst|].
    destruct (Hok eq_refl) as [_ ->]. vm_compute. reflexivity.
Defined.

Example delete_absent_id_is_silent :
  (await true (deleteImageById 7
     (insert_all (host_with_clock [100; 300; 200]%Z) three_records opened_world).2)).1
    = Resolved VUndefined ∧
  indexedDB (await true (deleteImageById 7
     (insert_all (host_with_clock [100; 300; 200]%Z) three_records opened_world).2)).2
    = indexedDB (insert_all (host_with_clock [100; 300; 200]%Z) three_records opened_world).2.
Proof. vm_compute. done. Qed.

Lemma clearAll_then_listAll_empty_witness :
  (await true (getAllImages
     (await true (clearAllImages
        (insert_all (host_with_clock [100; 300; 200]%Z) three_records opened_world).2)).2)).1
    = Resolved (VRecords []) ∧
  (await true (getAllImages opened_world)).1 = Resolved (VRecords []).
Proof.
  split.
  - apply (proj1 clearAll_then_listAll_empty true
             (insert_all (host_with_clock [100; 300; 200]%Z) three_records opened_world).2
             (await true (clearAllImages
                (insert_all (host_with_clock [100; 300; 200]%Z) three_records
                   opened_world).2)).2
             VUndefined).
    vm_compute. reflexivity.
  - apply (proj2 clearAll_then_listAll_empty opened_world empty_store).
    + vm_compute. reflexivity.
    + reflexivity.
Defined.

Lemma refreshGallery_newest_first_witness :
  galleryGrid (step (host_with_clock [100; 300; 200]%Z)
                 (refreshGallery (host_with_clock [100; 300; 200]%Z)
                    (with_three (host_with_clock [100; 300; 200]%Z)))
                 (Served true))
    = [ Div "card-item"
          (card_html "blob:museum/9"
             {| id := 2; name := JString "b.png"; blob := png_blob; created := 300 |})
          (Some 2%Z);
        Div "card-item"
          (card_html "blob:museum/10"
             {| id := 3; name := JString "c.png"; blob := png_blob; created := 200 |})
          (Some 3%Z);
        Div "card-item"
          (card_html "blob:museum/11"
             {| id := 1; name := JString "a.png"; blob := png_blob; created := 100 |})
          (Some 1%Z) ] ∧
  (λ el, tokenize (innerHTML_of el) !! 8)
    <$> galleryGrid (step (host_with_clock [100; 300; 200]%Z)
                       (refreshGallery (host_with_clock [100; 300; 200]%Z)
                          (with_three (host_with_clock [100; 300; 200]%Z)))
                       (Served true))
    = [Some (TText "b.png"); Some (TText "c.png"); Some (TText "a.png")].
Proof.
  destruct (refreshGallery_newest_first (host_with_clock [100; 300; 200]%Z)
              (with_three (host_with_clock [100; 300; 200]%Z))
              {| records := inserted (host_with_clock [100; 300; 200]%Z) 1 0 three_records;
                 keygen := 4 |})
    as (shown & _ & _ & _ & Horder).
  - vm_compute. reflexivity.
  - vm_compute. reflexivity.
  - destruct (Horder _ _ _ eq_refl eq_refl eq_refl eq_refl) as [_ Hgrid].
    split; [rewrite Hgrid|]; vm_compute; reflexivity.
Defined.

Example gallery_order_100_300_200 :
  delete_key_of <$> galleryGrid (with_three (host_with_clock [100; 300; 200]%Z))
  = [Some 2; Some 3; Some 1]%Z.
Proof. vm_compute. reflexivity. Qed.

Lemma openDB_again_keeps_databases_witness :
  ∃ c c',
    VDb conn0 = VDb c ∧ db opened_world = Some c ∧
    (await true (openDB opened_world)).1 = Resolved (VDb c') ∧
    databases (indexedDB (await true (openDB opened_world)).2)
      = databases (indexedDB opened_world) ∧
    db (await true (openDB opened_world)).2 = Some c' ∧
    conn_db c' = conn_db c ∧ conn_no c' = S (conn_no c) ∧
    connections (indexedDB (await true (openDB opened_world)).2)
      = connections (indexedDB opened_world) ++ [c'].
Proof.
  apply (openDB_again_keeps_databases true (fresh_world ∅) opened_world (VDb conn0)).
  vm_compute. reflexivity.
Defined.

(** C5 as stated fails: on a browser without databases the first initialize
    gives connection 0; the second gives connection 1, not the existing
    handle, replaces the module's handle by it and leaves two connections
    open. *)
Lemma openDB_again_returns_new_handle :
  (await true (openDB (fresh_world ∅))).1 = Resolved (VDb conn0) ∧
  db opened_world = Some conn0 ∧
  (await true (openDB opened_world)).1 = Resolved (VDb conn1) ∧
  (await true (openDB opened_world)).1 ≠ Resolved (VDb conn0) ∧
  db (await true (openDB opened_world)).2 = Some conn1 ∧
  connections (indexedDB (await true (openDB opened_world)).2) = [conn0; conn1].
Proof. vm_compute. split_and!; done. Qed.

Lemma failed_init_no_database_request_witness :
  galleryGrid (run (host_with_clock [100]%Z) (failed (host_with_clock [100]%Z))
                 [Drop [png "cat.png"]; ClickClearAll true; Served true])
    = [Markup storage_unavailable_html] ∧
  inflight (run (host_with_clock [100]%Z) (failed (host_with_clock [100]%Z))
              [Drop [png "cat.png"]; ClickClearAll true; Served true]) = [] ∧
  db (w (run (host_with_clock [100]%Z) (failed (host_with_clock [100]%Z))
           [Drop [png "cat.png"]; ClickClearAll true; Served true])) = None ∧
  databases (indexedDB (w (run (host_with_clock [100]%Z) (failed (host_with_clock [100]%Z))
                             [Drop [png "cat.png"]; ClickClearAll true; Served true])))
    = ∅.
Proof.
  apply (failed_init_no_database_request (host_with_clock [100]%Z) ∅ false
           [Drop [png "cat.png"]; ClickClearAll true; Served true]).
  vm_compute. reflexivity.
Defined.

(** C6 as stated fails: after a failed initialize, one dropped image file
    makes [handleFiles] call the insert, and a confirmed clear-all calls
    clearAll; both reject with a TypeError, the first one is logged. *)
Lemma failed_init_drop_still_calls_insert :
  db (w (failed (host_with_clock [100]%Z))) = None ∧
  calls (w (failed (host_with_clock [100]%Z))) = [CallOpen] ∧
  calls (w (run (host_with_clock [100]%Z) (failed (host_with_clock [100]%Z))
              [Drop [png "cat.png"]; ClickClearAll true]))
    = [CallOpen; CallAdd (JString "cat.png"); CallClear] ∧
  console (run (host_with_clock [100]%Z) (failed (host_with_clock [100]%Z))
             [Drop [png "cat.png"]; ClickClearAll true])
    = [("Failed to open DB", HostError); ("DB add error", TypeError)].
Proof. vm_compute. split_and!; done. Qed.

Lemma batch_failures_are_isolated_witness :
  inflight (run (host_with_clock [100; 300; 200]%Z) (started (host_with_clock [100; 300; 200]%Z))
              [Drop [png "a.png"; png "b.png"; png "c.png"];
               Served true; Served false; Served true; Served true; Served true]) = [] ∧
  console (run (host_with_clock [100; 300; 200]%Z) (started (host_with_clock [100; 300; 200]%Z))
             [Drop [png "a.png"; png "b.png"; png "c.png"];
              Served true; Served false; Served true; Served true; Served true])
    = [("DB add error", HostError)] ∧
  ∃ st',
    current_store
      (w (run (host_with_clock [100; 300; 200]%Z) (started (host_with_clock [100; 300; 200]%Z))
            [Drop [png "a.png"; png "b.png"; png "c.png"];
             Served true; Served false; Served true; Served true; Served true]))
      = Some st' ∧
    records st'
      = [ {| id := 1; name := JString "a.png"; blob := png_blob; created := 100 |};
          {| id := 2; name := JString "c.png"; blob := png_blob; created := 200 |} ] ∧
    galleryGrid
      (run (host_with_clock [100; 300; 200]%Z) (started (host_with_clock [100; 300; 200]%Z))
         [Drop [png "a.png"; png "b.png"; png "c.png"];
          Served true; Served false; Served true; Served true; Served true])
      = [ Div "card-item"
            (card_html "blob:museum/2"
               {| id := 2; name := JString "c.png"; blob := png_blob; created := 200 |})
            (Some 2%Z);
          Div "card-item"
            (card_html "blob:museum/3"
               {| id := 1; name := JString "a.png"; blob := png_blob; created := 100 |})
            (Some 1%Z) ] ∧
    (λ el, tokenize (innerHTML_of el) !! 8)
      <$> galleryGrid
            (run (host_with_clock [100; 300; 200]%Z)
               (started (host_with_clock [100; 300; 200]%Z))
               [Drop [png "a.png"; png "b.png"; png "c.png"];
                Served true; Served false; Served true; Served true; Served true])
      = [Some (TText "c.png"); Some (TText "a.png")].
Proof.
  pose proof (batch_failures_are_isolated (host_with_clock [100; 300; 200]%Z)
                (started (host_with_clock [100; 300; 200]%Z)) empty_store
                [png "a.png"; png "b.png"; png "c.png"] [true; false; true]) as Hthm.
  cbv zeta in Hthm.
  destruct Hthm as (Hq & Hc & st' & Hst & Hrec & Hg).
  - vm_compute. reflexivity.
  - vm_compute. reflexivity.
  - apply keys_below_empty.
  - vm_compute. reflexivity.
  - vm_compute. discriminate.
  - split; [exact Hq|]. split; [exact Hc|]. exists st'.
    split; [exact Hst|]. split; [rewrite Hrec; vm_compute; reflexivity|].
    assert (count_ok [true; false; true] ≠ 0) as Hok by (vm_compute; discriminate).
    specialize (Hg Hok).
    change (run (host_with_clock [100; 300; 200]%Z)
              (started (host_with_clock [100; 300; 200]%Z))
              (Drop [png "a.png"; png "b.png"; png "c.png"]
                 :: (Served <$> [true; false; true])
                    ++ replicate (count_ok [true; false; true]) (Served true)))
      with (run (host_with_clock [100; 300; 200]%Z)
              (started (host_with_clock [100; 300; 200]%Z))
              [Drop [png "a.png"; png "b.png"; png "c.png"];
               Served true; Served false; Served true; Served true; Served true]) in Hg.
    split; [rewrite Hg, Hrec|]; vm_compute; reflexivity.
Defined.

Example batch_second_insert_fails :
  name <$> stored_records
    (run (host_with_clock [100; 300; 200]%Z) (started (host_with_clock [100; 300; 200]%Z))
       [Drop [png "a.png"; png "b.png"; png "c.png"];
        Served true; Served false; Served true; Served true; Served true])
    = [JString "a.png"; JString "c.png"] ∧
  delete_key_of <$> galleryGrid
    (run (host_with_clock [100; 300; 200]%Z) (started (host_with_clock [100; 300; 200]%Z))
       [Drop [png "a.png"; png "b.png"; png "c.png"];
        Served true; Served false; Served true; Served true; Served true])
    = [Some 2; Some 1]%Z.
Proof. vm_compute. done. Qed.



Example script_name_is_escaped :
  galleryGrid (render (host_with_clock []) 
                 [ {| id := 1; name := JString "<script>alert(1)</script>.png";
                      blob := png_blob; created := 5 |} ]
                 (started (host_with_clock [])))
  = [ Div "card-item"
        (card_template "blob:museum/0" "&lt;script&gt;alert(1)&lt;/script&gt;.png"
           "blob:museum/0" "&lt;script&gt;alert(1)&lt;/script&gt;.png" "1")
        (Some 1%Z) ].
Proof. vm_compute. reflexivity. Qed.

Example nameless_records_rendered :
  galleryGrid (render (host_with_clock [])
                 [ {| id := 1; name := JUndefined; blob := png_blob; created := 7 |};
                   {| id := 2; name := JNull; blob := png_blob; created := 6 |};
                   {| id := 3; name := JString EmptyString; blob := png_blob; created := 5 |} ]
                 (started (host_with_clock [])))
  = [ Div "card-item"
        (card_template "blob:museum/0" "photo" "blob:museum/0" "Untitled" "1") (Some 1%Z);
      Div "card-item"
        (card_template "blob:museum/1" "photo" "blob:museum/1" "Untitled" "2") (Some 2%Z);
      Div "card-item"
        (card_template "blob:museum/2" "photo" "blob:museum/2" "Untitled" "3") (Some 3%Z) ].
Proof. vm_compute. reflexivity. Qed.

(** ** More on escapeHtml *)

(** X1. [escapeHtml] returns a string unchanged exactly when it holds none of
    the five characters [&], [<], [>], double quote, apostrophe. *)
Theorem escapeHtml_unchanged_iff :
  ∀ s, escapeHtml (JString s) = s ↔ special_free s = true.
Proof.
  unfold escapeHtml. cbn [ToString]. induction s as [|c s IH]; [done|].
  cbn [replace_markup_chars special_free].
  destruct (entity_length c) as [(Hsp & Hlen & t & Ht)|[Hsp Ht]]; rewrite Hsp, Ht in *.
  - split; [|done]. intros Heq. exfalso.
    apply (f_equal String.length) in Heq.
    rewrite string_length_app in Heq. cbn [String.length] in Heq, Hlen.
    pose proof (replace_markup_chars_length s). lia.
  - rewrite string_app_cons. cbn [negb andb String.append]. rewrite <- IH.
    split; [by intros [= ?]|by intros ->].
Qed.

(** X2. Escaping a concatenation is concatenating the escapes. *)
Theorem escapeHtml_app :
  ∀ s1 s2,
    escapeHtml (JString (s1 +:+ s2))
    = escapeHtml (JString s1) +:+ escapeHtml (JString s2).
Proof.
  unfold escapeHtml. cbn [ToString]. intros s1 s2.
  induction s1 as [|c s1 IH]; [done|].
  rewrite string_app_cons. cbn [replace_markup_chars].
  by rewrite IH, string_app_assoc.
Qed.

(** X3. Two different names never escape to the same text; the escaped text
    is at least as long as the name and at most six times as long. *)
Theorem escapeHtml_injective_and_bounded :
  ∀ s1 s2,
    (escapeHtml (JString s1) = escapeHtml (JString s2) ↔ s1 = s2) ∧
    (String.length s1 ≤ String.length (escapeHtml (JString s1))
       ≤ 6 * String.length s1)%nat.
Proof.
  intros s1 s2. unfold escapeHtml. cbn [ToString]. split.
  - split; [|by intros ->]. intros Heq.
    by rewrite <- (replace_markup_chars_unescape s1), Heq, replace_markup_chars_unescape.
  - apply replace_markup_chars_length.
Qed.

(** ** More on handleFiles *)

Lemma handleFile_other_type H s f : is_image f = false → handleFile H s f = s.
Proof. unfold handleFile, is_image. by intros ->. Qed.

(** X4. [handleFiles] skips every file whose type does not start with
    [image/]: the batch acts as its image files alone, and a batch without
    image files changes nothing (no store call, no preview, no log). *)
Theorem handleFiles_skips_other_types :
  ∀ H files s,
    handleFiles H files s = handleFiles H (filter (λ f, is_image f = true) files) s ∧
    handleFiles H (filter (λ f, is_image f = false) files) s = s.
Proof.
  intros H files. unfold handleFiles. induction files as [|f files IH]; intros s; [done|].
  rewrite !filter_cons. destruct (is_image f) eqn:Hf.
  - rewrite decide_True, decide_False by done. cbn [foldl].
    destruct (IH (handleFile H s f)) as [IH1 _]. destruct (IH s) as [_ IH2]. done.
  - rewrite decide_False, decide_True by done. cbn [foldl].
    rewrite (handleFile_other_type H s f Hf). apply IH.
Qed.

Lemma handleFile_closed H s f :
  db (w s) = None → is_image f = true →
  handleFile H s f
  = console_error "DB add error" TypeError
      (set_w (enter (CallAdd (JString (file_name f))) (w s))
         (set_reading (reading s ++ [f]) s)).
Proof.
  intros Hdb Hf. unfold handleFile. unfold is_image in Hf. rewrite Hf. cbn [negb].
  unfold addImageBlob, chain. rewrite transaction_enter. cbn [w set_reading].
  by rewrite transaction_closed.
Qed.

(** X5. While the module has no connection ([db] is still undefined: the
    open has not been served, or it failed), [handleFiles] places no request
    and stores nothing; every image file of the batch is still read for its
    preview, enters the insert once, and is logged as a failed add. *)
Theorem handleFiles_without_connection :
  ∀ H files s,
    db (w s) = None →
    db (w (handleFiles H files s)) = None ∧
    inflight (handleFiles H files s) = inflight s ∧
    indexedDB (w (handleFiles H files s)) = indexedDB (w s) ∧
    galleryGrid (handleFiles H files s) = galleryGrid s ∧
    reading (handleFiles H files s)
      = reading s ++ filter (λ f, is_image f = true) files ∧
    console (handleFiles H files s)
      = console s ++ replicate (length (filter (λ f, is_image f = true) files))
                       ("DB add error", TypeError) ∧
    calls (w (handleFiles H files s))
      = calls (w s) ++ ((λ f, CallAdd (JString (file_name f)))
                          <$> filter (λ f, is_image f = true) files).
Proof.
  intros H files. unfold handleFiles. induction files as [|f files IH]; intros s Hdb.
  - cbn. by rewrite !app_nil_r.
  - cbn [foldl]. rewrite filter_cons. destruct (is_image f) eqn:Hf.
    + rewrite decide_True by done. rewrite (handleFile_closed H s f Hdb Hf).
      match goal with |- context [foldl _ ?s1 files] =>
        destruct (IH s1) as (H1 & H2 & H3 & H4 & H5 & H6 & H7); [done|]
      end.
      rewrite H1, H2, H3, H4, H5, H6, H7. cbn. rewrite <- !app_assoc. done.
    + rewrite decide_False by done.
      rewrite (handleFile_other_type H s f Hf). by apply IH.
Qed.

Lemma handleFiles_without_connection_witness :
  inflight (step (host_with_clock [100]%Z) (loaded (host_with_clock [100]%Z) ∅)
              (Drop [png "cat.png"]))
    = [(ReqOpen DB_NAME DB_VERSION, KOpened)] ∧
  console (step (host_with_clock [100]%Z) (loaded (host_with_clock [100]%Z) ∅)
             (Drop [png "cat.png"]))
    = [("DB add error", TypeError)] ∧
  stored_records
    (run (host_with_clock [100]%Z) (loaded (host_with_clock [100]%Z) ∅)
       [Drop [png "cat.png"]; Served true; Served true]) = [].
Proof.
  destruct (handleFiles_without_connection (host_with_clock [100]%Z) [png "cat.png"]
              (loaded (host_with_clock [100]%Z) ∅))
    as (_ & Hq & _ & _ & _ & Hc & _).
  - vm_compute. reflexivity.
  - cbn [step]. rewrite Hq, Hc. split_and!; vm_compute; reflexivity.
Defined.

(** ** One action, served and refreshed *)

Lemma served_then_refreshed H s r k v x c d st :
  inflight s = [(r, k)] → k ≠ KListed →
  settle true r (w s) = (Resolved v, x) →
  db x = Some c → find_store c STORE_NAME (indexedDB x) = Some (d, st) →
  inflight (run H s [Served true; Served true]) = [] ∧
  w (run H s [Served true; Served true]) = enter CallGetAll x ∧
  galleryGrid (run H s [Served true; Served true])
    = gallery_of H (object_urls s) (Array_sort newest_first (records st)) ∧
  console (run H s [Served true; Served true]) = console s ∧
  uploadPreview (run H s [Served true; Served true]) = uploadPreview s.
Proof.
  intros Hq Hk Hsettle Hdb Hf. rewrite !run_cons. cbn [run foldl].
  assert (step H s (Served true)
          = push_request (ReqGetAll c STORE_NAME) KListed
              (set_w (enter CallGetAll x) (set_inflight [] s))) as ->.
  { unfold step. rewrite Hq, Hsettle.
    assert (react H k (Resolved v) (set_inflight [] (set_w x s))
            = refreshGallery H (set_inflight [] (set_w x s))) as -> by by destruct k.
    by rewrite (refreshGallery_ready H _ c d st). }
  erewrite step_served_listed; [|reflexivity|exact Hf].
  rewrite render_gallery.
  unfold render. by destruct (Array_sort newest_first (records st)).
Qed.

Lemma file_slice_all_whole f :
  file_slice_all f = {| blob_bytes := file_bytes f; blob_type := file_type f |}.
Proof. unfold file_slice_all. by rewrite drop_0, take_ge. Qed.

(** X6. On an open store with nothing in flight, one dropped image file,
    once its insert and the refresh it starts are served, is stored as one new
    record after the others: its id is the key generator's number, its name
    the file name, its blob the whole content and the type of the file, its
    [created] the clock reading taken at the drop; and the children of the
    grid are the cards of the records of the store, newest first, one card
    per record with its record's id on the Delete button. *)
Theorem dropped_image_is_stored_whole :
  ∀ H s st f,
    inflight s = [] → current_store (w s) = Some st → keys_below st →
    (keygen st ≤ max_generated_key)%Z → is_image f = true →
    ∃ st',
      current_store (w (run H s [Drop [f]; Served true; Served true])) = Some st' ∧
      records st'
        = records st
          ++ [ {| id := keygen st; name := JString (file_name f);
                  blob := {| blob_bytes := file_bytes f; blob_type := file_type f |};
                  created := Date_now H (clock_reads (w s)) |} ] ∧
      keygen st' = (keygen st + 1)%Z ∧
      galleryGrid (run H s [Drop [f]; Served true; Served true])
        = imap (λ i r, Div "card-item"
                         (card_html (createObjectURL H (object_urls s + i)) r)
                         (Some (id r)))
            (Array_sort newest_first (records st')) ∧
      inflight (run H s [Drop [f]; Served true; Served true]) = [].
Proof.
  intros H s st f Hq (c & d & Hdb & Hf)%current_store_Some Hk Hmax Himg.
  rewrite run_cons. cbn [step handleFiles foldl].
  rewrite (handleFile_ready H s f c d st Hdb Hf), Himg.
  set (it := {| i_name := JString (file_name f); i_blob := file_slice_all f;
                i_created := Date_now H (clock_reads (w s)) |}).
  set (st1 := {| records := records st ++ [with_key (keygen st) it];
                 keygen := (keygen st + 1)%Z |}).
  set (d1 := {| version := version d;
                objectStores := <[STORE_NAME := st1]> (objectStores d) |}).
  set (x1 := with_idb (set_store c STORE_NAME d st1 (indexedDB (w s)))
               (tick (enter (CallAdd (JString (file_name f))) (w s)))).
  match goal with |- context [run H ?s1 _] =>
    destruct (served_then_refreshed H s1 (ReqAdd c STORE_NAME it) KAdded
                (VKey (keygen st)) x1 c d1 st1)
      as (Hq' & Hw' & Hg' & _)
  end.
  - cbn. by rewrite Hq.
  - done.
  - cbn [w push_request set_w]. erewrite settle_add by exact Hf.
    rewrite store_add_below by done.
    destruct (Z.ltb_spec max_generated_key (keygen st)); [lia|done].
  - exact Hdb.
  - apply find_store_set.
  - exists st1. split_and!.
    + rewrite Hw'. apply current_store_Some. exists c, d1. split; [exact Hdb|].
      apply find_store_set.
    + subst st1 it. cbn [records]. unfold with_key. cbn.
      by rewrite file_slice_all_whole.
    + done.
    + rewrite Hg'. cbn [object_urls push_request set_w set_reading].
      assert (Array_sort newest_first (records st1) ≠ []) as Hne.
      { intros Hnil. pose proof (Array_sort_perm newest_first (records st1)) as Hp.
        rewrite Hnil in Hp. apply Permutation_nil_l in Hp. subst st1.
        cbn [records] in Hp. symmetry in Hp. by apply app_eq_nil in Hp as [_ ?]. }
      unfold gallery_of.
      destruct (Array_sort newest_first (records st1)); [done|apply cards_imap].
    + exact Hq'.
Qed.

Lemma dropped_image_is_stored_whole_witness :
  ∃ st',
    current_store
      (w (run (host_with_clock [100; 300; 200; 400]%Z)
            (with_three (host_with_clock [100; 300; 200; 400]%Z))
            [Drop [png "cat.png"]; Served true; Served true])) = Some st' ∧
    records st'
      = [ {| id := 1; name := JString "a.png"; blob := png_blob; created := 100 |};
          {| id := 2; name := JString "b.png"; blob := png_blob; created := 300 |};
          {| id := 3; name := JString "c.png"; blob := png_blob; created := 200 |};
          {| id := 4; name := JString "cat.png";
             blob := {| blob_bytes := [Byte.x89; Byte.x50]; blob_type := "image/png" |};
             created := 400 |} ] ∧
    galleryGrid (run (host_with_clock [100; 300; 200; 400]%Z)
                   (with_three (host_with_clock [100; 300; 200; 400]%Z))
                   [Drop [png "cat.png"]; Served true; Served true])
      = [ Div "card-item"
            (card_html "blob:museum/9"
               {| id := 4; name := JString "cat.png"; blob := png_blob; created := 400 |})
            (Some 4%Z);
          Div "card-item"
            (card_html "blob:museum/10"
               {| id := 2; name := JString "b.png"; blob := png_blob; created := 300 |})
            (Some 2%Z);
          Div "card-item"
            (card_html "blob:museum/11"
               {| id := 3; name := JString "c.png"; blob := png_blob; created := 200 |})
            (Some 3%Z);
          Div "card-item"
            (card_html "blob:museum/12"
               {| id := 1; name := JString "a.png"; blob := png_blob; created := 100 |})
            (Some 1%Z) ] ∧
    (λ el, tokenize (innerHTML_of el) !! 8)
      <$> galleryGrid (run (host_with_clock [100; 300; 200; 400]%Z)
                         (with_three (host_with_clock [100; 300; 200; 400]%Z))
                         [Drop [png "cat.png"]; Served true; Served true])
      = [Some (TText "cat.png"); Some (TText "b.png"); Some (TText "c.png");
         Some (TText "a.png")].
Proof.
  destruct (dropped_image_is_stored_whole (host_with_clock [100; 300; 200; 400]%Z)
              (with_three (host_with_clock [100; 300; 200; 400]%Z))
              {| records := inserted (host_with_clock [100; 300; 200; 400]%Z) 1 0
                              three_records;
                 keygen := 4 |}
              (png "cat.png"))
    as (st' & Hst & Hrec & _ & Hg & _).
  - vm_compute. reflexivity.
  - vm_compute. reflexivity.
  - intros r Hr. vm_compute in Hr.
    repeat (apply elem_of_cons in Hr as [->|Hr]; [vm_compute; reflexivity|]).
    by apply elem_of_nil in Hr.
  - vm_compute. discriminate.
  - vm_compute. reflexivity.
  - exists st'. split; [exact Hst|].
    split; [rewrite Hrec; vm_compute; reflexivity|].
    split; [rewrite Hg, Hrec|]; vm_compute; reflexivity.
Defined.

Lemma cards_lookup H shown : ∀ m n r,
  shown !! n = Some r →
  cards H m shown !! n
  = Some (Div "card-item" (card_html (createObjectURL H (m + n)) r) (Some (id r))).
Proof.
  induction shown as [|a shown IH]; intros m n r Hn; [done|].
  destruct n as [|n]; cbn [cards].
  - injection Hn as ->. by rewrite Nat.add_0_r.
  - change (cards H (S m) shown !! n
            = Some (Div "card-item" (card_html (createObjectURL H (m + S n)) r)
                      (Some (id r)))).
    rewrite (IH (S m) n r Hn). do 4 f_equal. lia.
Qed.

(** X7. With the gallery showing the cards of [shown] on an open store and
    nothing in flight, a confirmed click on the Delete button of the [n]-th
    card, once the delete and the refresh are served, removes the records
    with the id of the [n]-th shown record and no other, keeps the key
    generator, and shows the remaining store newest first; when the
    confirmation is declined nothing changes at all. *)
Theorem delete_button_removes_its_record :
  ∀ H s st m shown n r,
    inflight s = [] → current_store (w s) = Some st →
    galleryGrid s = cards H m shown → shown !! n = Some r →
    (∃ st',
       current_store (w (run H s [ClickDelete n true; Served true; Served true]))
         = Some st' ∧
       records st' = filter (λ x, id x ≠ id r) (records st) ∧
       keygen st' = keygen st ∧
       galleryGrid (run H s [ClickDelete n true; Served true; Served true])
         = gallery_of H (object_urls s) (Array_sort newest_first (records st')) ∧
       inflight (run H s [ClickDelete n true; Served true; Served true]) = []) ∧
    run H s [ClickDelete n false] = s.
Proof.
  intros H s st m shown n r Hq (c & d & Hdb & Hf)%current_store_Some Hg Hn.
  pose proof (cards_lookup H shown m n r Hn) as Hcard. rewrite <- Hg in Hcard.
  split; [|by cbn; rewrite Hcard].
  rewrite run_cons. cbn [step]. rewrite Hcard. cbn [negb].
  unfold deleteImageById, chain. rewrite transaction_enter.
  rewrite (transaction_ready _ c d st Hdb Hf). cbn [fst snd].
  set (st1 := store_delete (id r) st).
  set (d1 := {| version := version d;
                objectStores := <[STORE_NAME := st1]> (objectStores d) |}).
  set (x1 := with_idb (set_store c STORE_NAME d st1 (indexedDB (w s)))
               (enter (CallDelete (id r)) (w s))).
  match goal with |- context [run H ?s1 _] =>
    destruct (served_then_refreshed H s1 (ReqDelete c STORE_NAME (id r)) KDeleted
                VUndefined x1 c d1 st1)
      as (Hq' & Hw' & Hg' & _)
  end.
  - cbn. by rewrite Hq.
  - done.
  - cbn [w push_request set_w]. by erewrite settle_delete by exact Hf.
  - exact Hdb.
  - apply find_store_set.
  - exists st1. split_and!; [|done|done|by rewrite Hg'|exact Hq'].
    rewrite Hw'. apply current_store_Some. exists c, d1. split; [exact Hdb|].
    apply find_store_set.
Qed.

Lemma delete_button_removes_its_record_witness :
  (∃ st',
     current_store
       (w (run (host_with_clock [100; 300; 200]%Z)
             (with_three (host_with_clock [100; 300; 200]%Z))
             [ClickDelete 0 true; Served true; Served true])) = Some st' ∧
     id <$> records st' = [1; 3]%Z ∧
     delete_key_of <$> galleryGrid
       (run (host_with_clock [100; 300; 200]%Z)
          (with_three (host_with_clock [100; 300; 200]%Z))
          [ClickDelete 0 true; Served true; Served true]) = [Some 3; Some 1]%Z).
Proof.
  destruct (delete_button_removes_its_record (host_with_clock [100; 300; 200]%Z)
              (with_three (host_with_clock [100; 300; 200]%Z))
              {| records := inserted (host_with_clock [100; 300; 200]%Z) 1 0 three_records;
                 keygen := 4 |}
              6
              [ {| id := 2; name := JString "b.png"; blob := png_blob; created := 300 |};
                {| id := 3; name := JString "c.png"; blob := png_blob; created := 200 |};
                {| id := 1; name := JString "a.png"; blob := png_blob; created := 100 |} ]
              0
              {| id := 2; name := JString "b.png"; blob := png_blob; created := 300 |})
    as [(st' & Hst & Hrec & _ & Hg & _) _].
  - vm_compute. reflexivity.
  - vm_compute. reflexivity.
  - vm_compute. reflexivity.
  - reflexivity.
  - exists st'. split; [exact Hst|]. rewrite Hg, Hrec. split; vm_compute; reflexivity.
Defined.

(** X8. On an open store with nothing in flight, a confirmed click on Clear
    all, once the clear and the refresh are served, leaves the store without
    records, its key generator where it was (ids are not handed out again),
    and the gallery showing the empty-gallery paragraph; when the
    confirmation is declined nothing changes at all. *)
Theorem clear_all_button_empties_gallery :
  ∀ H s st,
    inflight s = [] → current_store (w s) = Some st →
    (∃ st',
       current_store (w (run H s [ClickClearAll true; Served true; Served true]))
         = Some st' ∧
       records st' = [] ∧ keygen st' = keygen st ∧
       galleryGrid (run H s [ClickClearAll true; Served true; Served true])
         = [Markup empty_gallery_html] ∧
       inflight (run H s [ClickClearAll true; Served true; Served true]) = []) ∧
    run H s [ClickClearAll false] = s.
Proof.
  intros H s st Hq (c & d & Hdb & Hf)%current_store_Some.
  split; [|done].
  rewrite run_cons. cbn [step negb].
  unfold clearAllImages, chain. rewrite transaction_enter.
  rewrite (transaction_ready _ c d st Hdb Hf). cbn [fst snd].
  set (st1 := store_clear st).
  set (d1 := {| version := version d;
                objectStores := <[STORE_NAME := st1]> (objectStores d) |}).
  set (x1 := with_idb (set_store c STORE_NAME d st1 (indexedDB (w s)))
               (enter CallClear (w s))).
  match goal with |- context [run H ?s1 _] =>
    destruct (served_then_refreshed H s1 (ReqClear c STORE_NAME) KCleared
                VUndefined x1 c d1 st1)
      as (Hq' & Hw' & Hg' & _)
  end.
  - cbn. by rewrite Hq.
  - done.
  - cbn [w push_request set_w]. by erewrite settle_clear by exact Hf.
  - exact Hdb.
  - apply find_store_set.
  - exists st1. split_and!; [|done|done|by rewrite Hg'|exact Hq'].
    rewrite Hw'. apply current_store_Some. exists c, d1. split; [exact Hdb|].
    apply find_store_set.
Qed.

Lemma clear_all_button_empties_gallery_witness :
  ∃ st',
    current_store
      (w (run (host_with_clock [100; 300; 200]%Z)
            (with_three (host_with_clock [100; 300; 200]%Z))
            [ClickClearAll true; Served true; Served true])) = Some st' ∧
    records st' = [] ∧ keygen st' = 4%Z ∧
    galleryGrid
      (run (host_with_clock [100; 300; 200]%Z)
         (with_three (host_with_clock [100; 300; 200]%Z))
         [ClickClearAll true; Served true; Served true])
      = [Markup empty_gallery_html].
Proof.
  destruct (clear_all_button_empties_gallery (host_with_clock [100; 300; 200]%Z)
              (with_three (host_with_clock [100; 300; 200]%Z))
              {| records := inserted (host_with_clock [100; 300; 200]%Z) 1 0 three_records;
                 keygen := 4 |})
    as [(st' & Hst & Hrec & Hkey & Hg & _) _].
  - vm_compute. reflexivity.
  - vm_compute. reflexivity.
  - exists st'. split_and!; [exact Hst|exact Hrec|exact Hkey|exact Hg].
Defined.

(** ** More on init and openDB *)

Lemma loaded_unfold H dbs :
  loaded H dbs
  = push_request (ReqOpen DB_NAME DB_VERSION) KOpened
      (set_w (enter CallOpen (fresh_world dbs))
         {| w := fresh_world dbs; inflight := []; reading := []; galleryGrid := [];
            uploadPreview := []; console := []; object_urls := 0 |}).
Proof. reflexivity. Qed.

(** X9. First visit: when the browser holds no database of that name, [init]
    with the open and the first listing served creates the database at
    version 1 with one empty collection whose key generator starts at 1,
    touches no other database, keeps connection 0 as the module's handle and
    shows the empty-gallery paragraph. *)
Theorem init_first_visit :
  ∀ H dbs,
    dbs !! DB_NAME = None →
    db (w (run H (loaded H dbs) [Served true; Served true])) = Some conn0 ∧
    databases (indexedDB (w (run H (loaded H dbs) [Served true; Served true])))
      = <[DB_NAME := {| version := 1;
                        objectStores := <[STORE_NAME := empty_store]> ∅ |}]> dbs ∧
    galleryGrid (run H (loaded H dbs) [Served true; Served true])
      = [Markup empty_gallery_html] ∧
    inflight (run H (loaded H dbs) [Served true; Served true]) = [] ∧
    console (run H (loaded H dbs) [Served true; Served true]) = [].
Proof.
  intros H dbs Hnone. rewrite loaded_unfold.
  set (d1 := {| version := 1; objectStores := <[STORE_NAME := empty_store]> ∅ |}).
  set (x1 := {| indexedDB := {| databases := <[DB_NAME := d1]> dbs;
                                connections := [conn0] |};
                db := Some conn0; clock_reads := 0; calls := [CallOpen] |}).
  match goal with |- context [run H ?s1 _] =>
    destruct (served_then_refreshed H s1 (ReqOpen DB_NAME DB_VERSION) KOpened
                (VDb conn0) x1 conn0 d1 empty_store)
      as (Hq' & Hw' & Hg' & Hc' & _)
  end.
  - done.
  - done.
  - cbn [w push_request set_w]. unfold settle, serve, factory_open.
    cbn [negb indexedDB enter fresh_world databases connections].
    rewrite Hnone. cbn [default version objectStores]. unfold onupgradeneeded.
    rewrite lookup_empty. done.
  - done.
  - apply find_store_Some. cbn. rewrite lookup_insert_eq. split; [done|].
    cbn. by rewrite lookup_insert_eq.
  - rewrite Hw', Hg', Hq', Hc'. done.
Qed.

Lemma init_first_visit_witness :
  db (w (started (host_with_clock [100]%Z))) = Some conn0 ∧
  stored_records (started (host_with_clock [100]%Z)) = [] ∧
  galleryGrid (started (host_with_clock [100]%Z)) = [Markup empty_gallery_html].
Proof.
  destruct (init_first_visit (host_with_clock [100]%Z) ∅) as (Hdb & Hdbs & Hg & _).
  - reflexivity.
  - unfold started. rewrite Hdb, Hg. split_and!; [done| |done].
    vm_compute. reflexivity.
Defined.

(** X10. Returning visit: when the database exists at the current version
    with its collection, [init] with the open and the first listing served
    leaves the stored databases exactly as they were and shows the stored
    records newest first. *)
Theorem init_returning_visit :
  ∀ H dbs d st,
    dbs !! DB_NAME = Some d → version d = DB_VERSION →
    objectStores d !! STORE_NAME = Some st →
    databases (indexedDB (w (run H (loaded H dbs) [Served true; Served true]))) = dbs ∧
    db (w (run H (loaded H dbs) [Served true; Served true])) = Some conn0 ∧
    galleryGrid (run H (loaded H dbs) [Served true; Served true])
      = gallery_of H 0 (Array_sort newest_first (records st)) ∧
    inflight (run H (loaded H dbs) [Served true; Served true]) = [] ∧
    console (run H (loaded H dbs) [Served true; Served true]) = [].
Proof.
  intros H dbs d st Hd Hv Hst. rewrite loaded_unfold.
  set (x1 := {| indexedDB := {| databases := dbs; connections := [conn0] |};
                db := Some conn0; clock_reads := 0; calls := [CallOpen] |}).
  match goal with |- context [run H ?s1 _] =>
    destruct (served_then_refreshed H s1 (ReqOpen DB_NAME DB_VERSION) KOpened
                (VDb conn0) x1 conn0 d st)
      as (Hq' & Hw' & Hg' & Hc' & _)
  end.
  - done.
  - done.
  - cbn [w push_request set_w]. unfold settle, serve, factory_open.
    cbn [negb indexedDB enter fresh_world databases connections].
    rewrite Hd. cbn [from_option]. cbv [Datatypes.id]. rewrite Hv, Z.ltb_irrefl.
    rewrite (insert_id dbs DB_NAME d Hd). done.
  - done.
  - apply find_store_Some. done.
  - rewrite Hw', Hg', Hq', Hc'. done.
Qed.

Lemma init_returning_visit_witness :
  databases (indexedDB (w (run (host_with_clock [100]%Z)
                             (loaded (host_with_clock [100]%Z) returning_dbs)
                             [Served true; Served true]))) = returning_dbs ∧
  delete_key_of <$> galleryGrid (run (host_with_clock [100]%Z)
                                   (loaded (host_with_clock [100]%Z) returning_dbs)
                                   [Served true; Served true])
    = [Some 5; Some 2]%Z.
Proof.
  destruct (init_returning_visit (host_with_clock [100]%Z) returning_dbs
              {| version := 1;
                 objectStores :=
                   <[STORE_NAME :=
                       {| records :=
                            [ {| id := 2; name := JString "old.png"; blob := png_blob;
                                 created := 50 |};
                              {| id := 5; name := JNull; blob := png_blob;
                                 created := 70 |} ];
                          keygen := 6 |}]> ∅ |}
              {| records :=
                   [ {| id := 2; name := JString "old.png"; blob := png_blob;
                        created := 50 |};
                     {| id := 5; name := JNull; blob := png_blob; created := 70 |} ];
                 keygen := 6 |})
    as (Hdbs & _ & Hg & _).
  - vm_compute. reflexivity.
  - reflexivity.
  - vm_compute. reflexivity.
  - rewrite Hdbs, Hg. split; [done|]. vm_compute. reflexivity.
Defined.

(** X11. When the stored database has a version above [DB_VERSION] the open
    is rejected with a VersionError although the host works: [init] logs the
    failure, shows the storage-unavailable message, keeps no handle and
    leaves the stored databases as they were. *)
Theorem init_newer_database :
  ∀ H dbs d,
    dbs !! DB_NAME = Some d → (DB_VERSION < version d)%Z →
    console (step H (loaded H dbs) (Served true))
      = [("Failed to open DB", VersionError)] ∧
    galleryGrid (step H (loaded H dbs) (Served true))
      = [Markup storage_unavailable_html] ∧
    db (w (step H (loaded H dbs) (Served true))) = None ∧
    databases (indexedDB (w (step H (loaded H dbs) (Served true)))) = dbs ∧
    inflight (step H (loaded H dbs) (Served true)) = [].
Proof.
  intros H dbs d Hd Hv. rewrite loaded_unfold.
  cbn [step inflight push_request set_w app w].
  unfold settle, serve, factory_open.
  cbn [negb indexedDB enter fresh_world databases connections].
  rewrite Hd. cbn [from_option]. cbv [Datatypes.id].
  destruct (Z.ltb_spec DB_VERSION (version d)); [|lia]. done.
Qed.

Lemma init_newer_database_witness :
  console (step (host_with_clock [100]%Z) (loaded (host_with_clock [100]%Z) newer_dbs)
             (Served true))
    = [("Failed to open DB", VersionError)] ∧
  galleryGrid (step (host_with_clock [100]%Z) (loaded (host_with_clock [100]%Z) newer_dbs)
                 (Served true))
    = [Markup storage_unavailable_html].
Proof.
  destruct (init_newer_database (host_with_clock [100]%Z) newer_dbs
              {| version := 2; objectStores := <[STORE_NAME := empty_store]> ∅ |})
    as (Hc & Hg & _).
  - vm_compute. reflexivity.
  - vm_compute. reflexivity.
  - by rewrite Hc, Hg.
Defined.

(** X12. Whatever the browser holds and whether the open succeeds or not,
    [openDB] changes no other database, and in its own database every
    collection that existed keeps its records and its key generator: the
    upgrade handler only ever adds the missing collection. *)
Theorem openDB_keeps_existing_data :
  ∀ ok (x : world),
    (∀ n, n ≠ DB_NAME →
       databases (indexedDB (await ok (openDB x)).2) !! n
       = databases (indexedDB x) !! n) ∧
    (∀ d, databases (indexedDB x) !! DB_NAME = Some d →
       ∃ d', databases (indexedDB (await ok (openDB x)).2) !! DB_NAME = Some d' ∧
             ∀ nm st, objectStores d !! nm = Some st →
                      objectStores d' !! nm = Some st).
Proof.
  intros ok x. rewrite openDB_await. unfold settle, serve.
  destruct ok; cbn [negb indexedDB enter]; [|by split; eauto].
  unfold factory_open.
  destruct (databases (indexedDB x) !! DB_NAME) as [d0|] eqn:Hd0;
    cbn [from_option]; cbv [Datatypes.id].
  - destruct (_ <? _)%Z; cbn [fst snd indexedDB]; [rewrite Hd0; split; eauto|].
    cbn [databases]. split.
    + intros n Hn. by rewrite lookup_insert_ne.
    + intros d [= <-]. rewrite lookup_insert_eq. eexists. split; [done|].
      intros nm st Hst. destruct (_ <? _)%Z; [|done]. cbn [objectStores].
      unfold onupgradeneeded.
      destruct (objectStores d0 !! STORE_NAME) eqn:Hs; [done|].
      rewrite lookup_insert_ne; [done|]. intros <-. congruence.
  - destruct (_ <? _)%Z; cbn [fst snd indexedDB]; [rewrite Hd0; split; [done|done]|].
    cbn [databases]. split; [|done].
    intros n Hn. by rewrite lookup_insert_ne.
Qed.

(** ** Requests the host fails *)

(** X14. When the host fails the oldest request, nothing is retried and no
    refresh is started: the request leaves the queue, the module state and
    the stored databases stay as they were, and the previews too.  Only a
    failed open (logged, and the storage-unavailable message shown) and a
    failed insert (logged) are reported; a failed listing, delete or
    clear-all changes neither the gallery nor the log. *)
Theorem failed_request_effects :
  ∀ H s r k q,
    inflight s = (r, k) :: q →
    w (step H s (Served false)) = w s ∧
    inflight (step H s (Served false)) = q ∧
    uploadPreview (step H s (Served false)) = uploadPreview s ∧
    galleryGrid (step H s (Served false))
      = match k with
        | KOpened => [Markup storage_unavailable_html]
        | _ => galleryGrid s
        end ∧
    console (step H s (Served false))
      = console s ++ match k with
                     | KOpened => [("Failed to open DB", HostError)]
                     | KAdded => [("DB add error", HostError)]
                     | _ => []
                     end.
Proof.
  intros H s r k q Hq. unfold step. rewrite Hq, settle_failed, set_w_same.
  destruct k; cbn; by rewrite ?app_nil_r.
Qed.

Lemma failed_request_effects_witness :
  stored_records
    (run (host_with_clock [100; 300; 200]%Z) (with_three (host_with_clock [100; 300; 200]%Z))
       [ClickDelete 0 true; Served false])
    = stored_records (with_three (host_with_clock [100; 300; 200]%Z)) ∧
  galleryGrid
    (run (host_with_clock [100; 300; 200]%Z) (with_three (host_with_clock [100; 300; 200]%Z))
       [ClickDelete 0 true; Served false])
    = galleryGrid (with_three (host_with_clock [100; 300; 200]%Z)) ∧
  console
    (run (host_with_clock [100; 300; 200]%Z) (with_three (host_with_clock [100; 300; 200]%Z))
       [ClickDelete 0 true; Served false]) = [].
Proof.
  rewrite run_cons.
  destruct (failed_request_effects (host_with_clock [100; 300; 200]%Z)
              (step (host_with_clock [100; 300; 200]%Z)
                 (with_three (host_with_clock [100; 300; 200]%Z)) (ClickDelete 0 true))
              (ReqDelete conn0 STORE_NAME 2) KDeleted [])
    as (Hw & _ & _ & Hg & Hc).
  - vm_compute. reflexivity.
  - unfold run. cbn [foldl]. unfold stored_records. rewrite Hw, Hg, Hc.
    split_and!; vm_compute; reflexivity.
Defined.

(** ** Previews *)

Lemma render_previews H items s : previews (render H items s) = previews s.
Proof. unfold render. by destruct (Array_sort newest_first items). Qed.

Lemma refreshGallery_previews H s : previews (refreshGallery H s) = previews s.
Proof.
  unfold refreshGallery, getAllImages. rewrite transaction_enter.
  by destruct (transaction (w s)).
Qed.

Lemma react_previews H k res s : previews (react H k res s) = previews s.
Proof.
  assert (previews (on_listed H res s) = previews s) as Hlisted.
  { unfold on_listed. destruct res as [[]|]; try done. apply render_previews. }
  destruct k, res; cbn [react]; try done; by rewrite refreshGallery_previews.
Qed.

Lemma chain_previews H k pw s : previews (chain H k pw s) = previews s.
Proof.
  unfold chain. destruct pw as [[e|r] x]; cbn [fst snd]; [|done].
  by rewrite react_previews.
Qed.

Lemma handleFile_previews H s f :
  previews (handleFile H s f)
  = (reading s ++ (if is_image f then [f] else []), uploadPreview s).
Proof.
  unfold handleFile, is_image.
  destruct (startsWith (file_type f) "image/"); cbn [negb].
  - cbv zeta. by rewrite chain_previews.
  - unfold previews. by rewrite app_nil_r.
Qed.

Lemma handleFiles_previews H files : ∀ s,
  previews (handleFiles H files s)
  = (reading s ++ filter (λ f, is_image f = true) files, uploadPreview s).
Proof.
  unfold handleFiles. induction files as [|f files IH]; intros s.
  - cbn. by rewrite app_nil_r.
  - cbn [foldl]. rewrite IH, filter_cons.
    pose proof (handleFile_previews H s f) as Hp. unfold previews in Hp.
    injection Hp as -> ->.
    destruct (is_image f).
    + rewrite decide_True by done. by rewrite <- app_assoc.
    + rewrite decide_False by done. by rewrite app_nil_r.
Qed.

Lemma step_previews H s e :
  match e with
  | Drop files | Change files =>
      previews (step H s e)
      = (reading s ++ filter (λ f, is_image f = true) files, uploadPreview s)
  | Loaded n =>
      match reading s !! n with
      | Some f => previews (step H s e)
                  = (delete n (reading s), uploadPreview s ++ [thumb H f])
      | None => previews (step H s e) = previews s
      end
  | _ => previews (step H s e) = previews s
  end.
Proof.
  destruct e as [files|files|confirmed|n confirmed|ok|n]; cbn [step].
  - apply handleFiles_previews.
  - apply handleFiles_previews.
  - destruct confirmed; [|done]. apply chain_previews.
  - destruct (galleryGrid s !! n) as [[|? ? [key|]]|]; try done.
    destruct confirmed; [|done]. apply chain_previews.
  - destruct (inflight s) as [|[r k] q]; [done|].
    destruct (settle ok r (w s)) as [res x]. by rewrite react_previews.
  - by destruct (reading s !! n).
Qed.

(** X15. Thumbnails are only ever appended to the upload preview: whatever
    happens in a session (refreshes, deletes, clear-all, failures), the
    previews shown before are still there, in place. *)
Theorem previews_are_never_removed :
  ∀ H es s, uploadPreview s `prefix_of` uploadPreview (run H s es).
Proof.
  intros H es. unfold run. induction es as [|e es IH]; intros s; [done|].
  cbn [foldl]. etrans; [|apply IH].
  pose proof (step_previews H s e) as Hp. unfold previews in Hp.
  destruct e as [files|files|confirmed|n confirmed|ok|n].
  1-5: apply (f_equal snd) in Hp; cbn [snd] in Hp; by rewrite Hp.
  destruct (reading s !! n); apply (f_equal snd) in Hp; cbn [snd] in Hp; rewrite Hp;
    [|done].
  by apply prefix_app_r.
Qed.

Lemma loads_delivered H ns : ∀ s,
  ∃ l, uploadPreview (run H s (Loaded <$> ns)) = uploadPreview s ++ l ∧
       l ++ (thumb H <$> reading (run H s (Loaded <$> ns))) ≡ₚ thumb H <$> reading s.
Proof.
  induction ns as [|n ns IH]; intros s.
  - exists []. cbn. by rewrite app_nil_r.
  - cbn [fmap list_fmap]. rewrite run_cons.
    pose proof (step_previews H s (Loaded n)) as Hp. cbn beta iota in Hp.
    destruct (IH (step H s (Loaded n))) as (l & Hup & Hperm).
    destruct (reading s !! n) as [f|] eqn:Hn; unfold previews in Hp;
      pose proof (f_equal fst Hp) as Hrd; pose proof (f_equal snd Hp) as Hu;
      cbn [fst snd] in Hrd, Hu; rewrite Hu in Hup; rewrite Hrd in Hperm.
    + exists (thumb H f :: l). rewrite Hup, <- app_assoc. split; [done|].
      cbn [app]. rewrite Hperm.
      rewrite (delete_Permutation (reading s) n f Hn) at 2. done.
    + by exists l.
Qed.

(** X16. With no load pending, drop a batch and let its loads be delivered in
    any order: once none is pending, the thumbnails added after those already
    shown are exactly one per image file of the batch (a rearrangement of
    the file order), each made from the data URL of its file, whatever the
    store does.  When the loads are delivered oldest first the thumbnails are
    in file order. *)
Theorem every_image_gets_a_preview :
  ∀ H files s ns,
    reading s = [] →
    (reading (run H s (Drop files :: (Loaded <$> ns))) = [] →
     ∃ l, uploadPreview (run H s (Drop files :: (Loaded <$> ns))) = uploadPreview s ++ l ∧
          l ≡ₚ thumb H <$> filter (λ f, is_image f = true) files) ∧
    uploadPreview
      (run H s (Drop files
                  :: replicate (length (filter (λ f, is_image f = true) files)) (Loaded 0)))
      = uploadPreview s ++ (thumb H <$> filter (λ f, is_image f = true) files) ∧
    reading
      (run H s (Drop files
                  :: replicate (length (filter (λ f, is_image f = true) files)) (Loaded 0)))
      = [].
Proof.
  intros H files s ns Hr.
  pose proof (step_previews H s (Drop files)) as Hp. cbn beta iota in Hp.
  rewrite Hr in Hp. cbn [app] in Hp. split.
  - rewrite run_cons. intros Hdone.
    destruct (loads_delivered H ns (step H s (Drop files))) as (l & Hup & Hperm).
    unfold previews in Hp.
    pose proof (f_equal fst Hp) as Hrd. pose proof (f_equal snd Hp) as Hu.
    cbn [fst snd] in Hrd, Hu. rewrite Hdone, Hrd in Hperm. rewrite Hu in Hup.
    exists l. split; [done|]. cbn [fmap list_fmap] in Hperm. by rewrite app_nil_r in Hperm.
  - rewrite run_cons.
    revert Hp. generalize (step H s (Drop files)) as s1.
    generalize (uploadPreview s) as ps.
    induction (filter (λ f, is_image f = true) files) as [|f fs IH]; intros ps s1 Hp.
    + unfold previews in Hp.
      pose proof (f_equal fst Hp) as Hrd. pose proof (f_equal snd Hp) as Hup.
      cbn [fst snd] in Hrd, Hup. cbn. by rewrite Hrd, Hup, app_nil_r.
    + cbn [length replicate]. rewrite run_cons.
      pose proof (step_previews H s1 (Loaded 0)) as Hp1. cbn beta iota in Hp1.
      unfold previews in Hp.
      pose proof (f_equal fst Hp) as Hrd. pose proof (f_equal snd Hp) as Hup.
      cbn [fst snd] in Hrd, Hup. rewrite Hrd, Hup in Hp1.
      change (previews (step H s1 (Loaded 0)) = (fs, ps ++ [thumb H f])) in Hp1.
      destruct (IH _ _ Hp1) as [IH1 IH2].
      rewrite IH1, IH2. cbn. by rewrite <- app_assoc.
Qed.

Lemma every_image_gets_a_preview_witness :
  uploadPreview
    (run (host_with_clock [100]%Z) (failed (host_with_clock [100]%Z))
       [Drop [png "cat.png"; jpg "dog.jpg"]; Loaded 1; Loaded 0])
  = [ Div "preview-thumb" (preview_html "data:image/jpeg;base64,") None;
      Div "preview-thumb" (preview_html "data:image/png;base64,") None ] ∧
  uploadPreview
    (run (host_with_clock [100]%Z) (failed (host_with_clock [100]%Z))
       [Drop [png "cat.png"; jpg "dog.jpg"]; Loaded 0; Loaded 0])
  = [ Div "preview-thumb" (preview_html "data:image/png;base64,") None;
      Div "preview-thumb" (preview_html "data:image/jpeg;base64,") None ].
Proof.
  destruct (every_image_gets_a_preview (host_with_clock [100]%Z)
              [png "cat.png"; jpg "dog.jpg"] (failed (host_with_clock [100]%Z)) [1; 0])
    as (Hany & Hfifo & _).
  - reflexivity.
  - destruct Hany as (l & Hup & _); [vm_compute; reflexivity|].
    split; [vm_compute; reflexivity|]. vm_compute in Hfifo. vm_compute. exact Hfifo.
Defined.

(** ** How store operations compose *)

Lemma store_delete_twice k s : store_delete k (store_delete k s) = store_delete k s.
Proof.
  apply store_delete_absent. intros r [Hr _]%list_elem_of_filter. done.
Qed.

(** X17. Deleting the same id twice is deleting it once: on an open store the
    second deleteById resolves and leaves the database exactly as the first
    one left it. *)
Theorem deleteById_twice :
  ∀ k (x : world) st,
    current_store x = Some st →
    (await true (deleteImageById k (await true (deleteImageById k x)).2)).1
      = Resolved VUndefined ∧
    indexedDB (await true (deleteImageById k (await true (deleteImageById k x)).2)).2
      = indexedDB (await true (deleteImageById k x)).2.
Proof.
  intros k x st (c & d & Hdb & Hf)%current_store_Some.
  rewrite (deleteById_ready true k x c d st Hdb Hf). cbn [snd].
  erewrite deleteById_ready; [|exact Hdb|apply find_store_set].
  cbn [fst snd with_idb indexedDB enter]. split; [done|].
  rewrite store_delete_twice.
  apply set_store_same. apply find_store_set.
Qed.

Lemma deleteById_twice_witness :
  indexedDB
    (await true (deleteImageById 2
       (await true (deleteImageById 2
          (insert_all (host_with_clock [100; 300; 200]%Z) three_records opened_world).2)).2)).2
  = indexedDB
      (await true (deleteImageById 2
         (insert_all (host_with_clock [100; 300; 200]%Z) three_records opened_world).2)).2.
Proof.
  apply (deleteById_twice 2
           (insert_all (host_with_clock [100; 300; 200]%Z) three_records opened_world).2
           {| records := inserted (host_with_clock [100; 300; 200]%Z) 1 0 three_records;
              keygen := 4 |}).
  vm_compute. reflexivity.
Defined.

(** X18. On an open store whose keys all came from its generator, an insert
    resolves with the generator's number, and deleting that id right after
    gives back the records the store held before; only the key generator has
    moved on, so the id is not handed out again. *)
Theorem insert_then_delete_restores_records :
  ∀ H n b (x : world) st,
    current_store x = Some st → keys_below st →
    (keygen st ≤ max_generated_key)%Z →
    (await true (addImageBlob H n b x)).1 = Resolved (VKey (keygen st)) ∧
    ∃ st',
      current_store
        (await true (deleteImageById (keygen st)
                       (await true (addImageBlob H n b x)).2)).2 = Some st' ∧
      records st' = records st ∧ keygen st' = (keygen st + 1)%Z.
Proof.
  intros H n b x st (c & d & Hdb & Hf)%current_store_Some Hk Hmax.
  rewrite (addImageBlob_ready H true n b x c d st Hdb Hf). cbv zeta.
  rewrite store_add_below by done.
  destruct (Z.ltb_spec max_generated_key (keygen st)); [lia|]. cbn [fst snd].
  split; [done|].
  erewrite deleteById_ready; [|exact Hdb|apply find_store_set].
  cbn [snd]. eexists. split.
  - apply current_store_Some. exists c. eexists. split; [exact Hdb|]. apply find_store_set.
  - cbn [store_delete records keygen]. split; [|done].
    rewrite filter_app, filter_all.
    + rewrite filter_cons_False; [by rewrite app_nil_r|]. cbn. by intros ?.
    + intros r Hr. apply Hk in Hr. lia.
Qed.

Lemma insert_then_delete_restores_records_witness :
  ∃ st',
    current_store
      (await true (deleteImageById 1
         (await true (addImageBlob (host_with_clock [100]%Z) (JString "a.png") png_blob
                        opened_world)).2)).2 = Some st' ∧
    records st' = [] ∧ keygen st' = 2%Z.
Proof.
  destruct (insert_then_delete_restores_records (host_with_clock [100]%Z)
              (JString "a.png") png_blob opened_world empty_store)
    as (_ & st' & Hst & Hrec & Hkey).
  - vm_compute. reflexivity.
  - apply keys_below_empty.
  - vm_compute. discriminate.
  - exists st'. split_and!; [exact Hst|exact Hrec|exact Hkey].
Defined.

(** ** Fallback texts *)



Lemma rendered_names_are_escaped_witness :
  Forall (λ el,
    el = Markup empty_gallery_html ∨
    ∃ it url alt caption,
      it ∈ [ {| id := 1; name := JString "<script>alert(1)</script>.png";
                blob := png_blob; created := 5 |} ] ∧
      el = Div "card-item" (card_template url alt url caption (pretty (id it)))
             (Some (id it)) ∧
      tokenize (innerHTML_of el) = card_dom url alt caption (pretty (id it)) ∧
      TOpen "img" [("alt", alt); ("src", url)] ∈ tokenize (innerHTML_of el) ∧
      TText caption ∈ tokenize (innerHTML_of el) ∧
      escaped_text alt = true ∧ escaped_text caption = true ∧
      (∀ c, c ∈ String.list_ascii_of_string alt ∨
            c ∈ String.list_ascii_of_string caption →
            is_markup_char c = false) ∧
      unescape 0 alt = ToString (js_or (name it) "photo") ∧
      unescape 0 caption = ToString (js_or (name it) "Untitled"))
    (galleryGrid
       (render (host_with_clock [])
          [ {| id := 1; name := JString "<script>alert(1)</script>.png";
               blob := png_blob; created := 5 |} ]
          (started (host_with_clock [])))) ∧
  tokenize <$> (innerHTML_of <$>
    galleryGrid
      (render (host_with_clock [])
         [ {| id := 1; name := JString "<script>alert(1)</script>.png";
              blob := png_blob; created := 5 |} ]
         (started (host_with_clock []))))
  = [ card_dom "blob:museum/0" "&lt;script&gt;alert(1)&lt;/script&gt;.png"
        "&lt;script&gt;alert(1)&lt;/script&gt;.png" "1" ].
Proof.
  split; [|vm_compute; reflexivity].
  apply (proj1 (rendered_names_are_escaped (host_with_clock [])
                  [ {| id := 1; name := JString "<script>alert(1)</script>.png";
                       blob := png_blob; created := 5 |} ]
                  (started (host_with_clock [])) (host_with_clock_urls []))).
Defined.

Lemma nameless_record_fallbacks_witness :
  Forall (λ it,
    name it ∈ [JUndefined; JNull; JString EmptyString] →
    ∃ url html,
      Div "card-item" html (Some (id it))
        ∈ galleryGrid
            (render (host_with_clock [])
               [ {| id := 1; name := JUndefined; blob := png_blob; created := 7 |};
                 {| id := 2; name := JNull; blob := png_blob; created := 6 |};
                 {| id := 3; name := JString EmptyString; blob := png_blob;
                    created := 5 |} ]
               (started (host_with_clock []))) ∧
      html = card_template url "photo" url "Untitled" (pretty (id it)) ∧
      tokenize html = card_dom url "photo" "Untitled" (pretty (id it)) ∧
      TOpen "img" [("alt", "photo"); ("src", url)] ∈ tokenize html ∧
      [TOpen "div" [("class", "meta-left")]; TText "Untitled"; TClose "div"]
        `sublist_of` tokenize html)
    [ {| id := 1; name := JUndefined; blob := png_blob; created := 7 |};
      {| id := 2; name := JNull; blob := png_blob; created := 6 |};
      {| id := 3; name := JString EmptyString; blob := png_blob; created := 5 |} ] ∧
  (λ el, (tokenize (innerHTML_of el) !! 2, tokenize (innerHTML_of el) !! 8))
    <$> galleryGrid
          (render (host_with_clock [])
             [ {| id := 1; name := JUndefined; blob := png_blob; created := 7 |};
               {| id := 2; name := JNull; blob := png_blob; created := 6 |};
               {| id := 3; name := JString EmptyString; blob := png_blob;
                  created := 5 |} ]
             (started (host_with_clock [])))
    = [ (Some (TOpen "img" [("alt", "photo"); ("src", "blob:museum/0")]),
         Some (TText "Untitled"));
        (Some (TOpen "img" [("alt", "photo"); ("src", "blob:museum/1")]),
         Some (TText "Untitled"));
        (Some (TOpen "img" [("alt", "photo"); ("src", "blob:museum/2")]),
         Some (TText "Untitled")) ].
Proof.
  split; [|vm_compute; reflexivity].
  apply (nameless_record_fallbacks (host_with_clock [])
           [ {| id := 1; name := JUndefined; blob := png_blob; created := 7 |};
             {| id := 2; name := JNull; blob := png_blob; created := 6 |};
             {| id := 3; name := JString EmptyString; blob := png_blob; created := 5 |} ]
           (started (host_with_clock [])) (host_with_clock_urls [])).
Defined.
